(** * EXTI line ownership and dispatch of the STM32 GPIO driver

    A shallow embedding of [Firmware/Drivers/STM32/stm32_gpio.cpp]:
    the subscription table, [Stm32Gpio::subscribe], [Stm32Gpio::unsubscribe],
    [maybe_handle] and the interrupt entry points, followed by the
    properties of the interrupt-line ownership and dispatch subsystem. *)

From Stdlib Require Import ZArith Lia Bool List.
From stdpp Require Import base list.
Import ListNotations.

Local Open Scope Z_scope.

(** ** Machine integers and pointers *)

(** Conversion to [uint32_t]: the value modulo [2^32]. *)
Definition u32 (x : Z) : Z := x mod 2 ^ 32.

(** [~x] on a [uint32_t]. *)
Definition not32 (x : Z) : Z := u32 (Z.lnot x).

(** Addresses.  [GPIO_TypeDef*], [void*] and [void ( * )(void* )] values are
    all addresses; [nullptr] is address 0. *)
Definition pointer := Z.
Definition nullptr : pointer := 0.

(** [#define N_EXTI 16] *)
Definition N_EXTI : Z := 16.

(** [RESET] of the HAL's [ITStatus] enumeration. *)
Definition RESET : Z := 0.

(** ** Data model *)

(** [struct subscription_t { GPIO_TypeDef* port; void ( *callback)(void* ); void* ctx; }] *)
Record subscription_t := mk_subscription {
  port : pointer;
  callback : pointer;
  ctx : pointer
}.

(** The default member initialisers: all three fields are [nullptr]. *)
Definition no_subscription : subscription_t :=
  {| port := nullptr; callback := nullptr; ctx := nullptr |}.

#[global] Instance subscription_t_inhabited : Inhabited subscription_t :=
  populate no_subscription.

(** The two data members of [class Stm32Gpio] that the source file uses. *)
Record Stm32Gpio := mk_gpio {
  port_ : pointer;
  pin_mask_ : Z
}.

(** [const Stm32Gpio Stm32Gpio::none{nullptr, 0};] *)
Definition none : Stm32Gpio := {| port_ := nullptr; pin_mask_ := 0 |}.

(** One callback invocation made by the dispatcher: which line was being
    handled, the function pointer that was called and its argument.
    Callbacks are opaque application code; the model records the call. *)
Record call := mk_call {
  call_line : Z;
  call_fn : pointer;
  call_arg : pointer
}.

(** The state the driver works on: the global table [subscriptions], the
    registers of [SYSCFG] and [EXTI] that [subscribe], [unsubscribe] and
    [maybe_handle] touch, the SYSCFG clock enable bit, and the log of
    callback invocations (most recent first). *)
Record machine := mk_machine {
  subscriptions : list subscription_t;
  EXTICR : list Z;
  RTSR : Z;
  FTSR : Z;
  EMR : Z;
  IMR : Z;
  PR : Z;
  SYSCFGEN : bool;
  calls : list call
}.

(** Start-up: the table is zero-initialised, the peripherals are in their
    reset state. *)
Definition startup : machine :=
  {| subscriptions := replicate (Z.to_nat N_EXTI) no_subscription;
     EXTICR := [0; 0; 0; 0];
     RTSR := 0; FTSR := 0; EMR := 0; IMR := 0; PR := 0;
     SYSCFGEN := false;
     calls := [] |}.

Definition set_subscriptions (v : list subscription_t) (m : machine) : machine :=
  mk_machine v (EXTICR m) (RTSR m) (FTSR m) (EMR m) (IMR m) (PR m) (SYSCFGEN m) (calls m).
Definition set_EXTICR (v : list Z) (m : machine) : machine :=
  mk_machine (subscriptions m) v (RTSR m) (FTSR m) (EMR m) (IMR m) (PR m) (SYSCFGEN m) (calls m).
Definition set_RTSR (v : Z) (m : machine) : machine :=
  mk_machine (subscriptions m) (EXTICR m) v (FTSR m) (EMR m) (IMR m) (PR m) (SYSCFGEN m) (calls m).
Definition set_FTSR (v : Z) (m : machine) : machine :=
  mk_machine (subscriptions m) (EXTICR m) (RTSR m) v (EMR m) (IMR m) (PR m) (SYSCFGEN m) (calls m).
Definition set_EMR (v : Z) (m : machine) : machine :=
  mk_machine (subscriptions m) (EXTICR m) (RTSR m) (FTSR m) v (IMR m) (PR m) (SYSCFGEN m) (calls m).
Definition set_IMR (v : Z) (m : machine) : machine :=
  mk_machine (subscriptions m) (EXTICR m) (RTSR m) (FTSR m) (EMR m) v (PR m) (SYSCFGEN m) (calls m).
Definition set_PR (v : Z) (m : machine) : machine :=
  mk_machine (subscriptions m) (EXTICR m) (RTSR m) (FTSR m) (EMR m) (IMR m) v (SYSCFGEN m) (calls m).
Definition set_SYSCFGEN (v : bool) (m : machine) : machine :=
  mk_machine (subscriptions m) (EXTICR m) (RTSR m) (FTSR m) (EMR m) (IMR m) (PR m) v (calls m).
Definition set_calls (v : list call) (m : machine) : machine :=
  mk_machine (subscriptions m) (EXTICR m) (RTSR m) (FTSR m) (EMR m) (IMR m) (PR m) (SYSCFGEN m) v.

(** [subscriptions[n]] read through a reference. *)
Definition subscription_at (n : Z) (m : machine) : subscription_t :=
  subscriptions m !!! Z.to_nat n.

(** A store to one field of [subscriptions[n]]. *)
Definition store_port (n : Z) (v : pointer) (m : machine) : machine :=
  let s := subscription_at n m in
  set_subscriptions (<[Z.to_nat n := mk_subscription v (callback s) (ctx s)]> (subscriptions m)) m.
Definition store_callback (n : Z) (v : pointer) (m : machine) : machine :=
  let s := subscription_at n m in
  set_subscriptions (<[Z.to_nat n := mk_subscription (port s) v (ctx s)]> (subscriptions m)) m.
Definition store_ctx (n : Z) (v : pointer) (m : machine) : machine :=
  let s := subscription_at n m in
  set_subscriptions (<[Z.to_nat n := mk_subscription (port s) (callback s) v]> (subscriptions m)) m.

(** ** HAL macros used by the source

    The pending register is write-one-to-clear: [__HAL_GPIO_EXTI_CLEAR_IT(x)]
    writes [x] to [EXTI->PR], which clears exactly the flags selected by [x];
    [__HAL_GPIO_EXTI_GET_IT(x)] is [EXTI->PR & x];
    [__HAL_RCC_SYSCFG_CLK_ENABLE()] sets the SYSCFG clock enable bit. *)
Definition HAL_GPIO_EXTI_CLEAR_IT (x : Z) (m : machine) : machine :=
  set_PR (Z.land (PR m) (not32 (u32 x))) m.
Definition HAL_GPIO_EXTI_GET_IT (x : Z) (m : machine) : Z :=
  Z.land (PR m) (u32 x).
Definition HAL_RCC_SYSCFG_CLK_ENABLE (m : machine) : machine :=
  set_SYSCFGEN true m.

(** [__atomic_compare_exchange_n(&subscriptions[n].port, &expected, desired, ...)]:
    one indivisible step.  On failure the value found is written back to the
    caller's local [expected], which the source never reads again. *)
Definition atomic_compare_exchange_port (n : Z) (expected desired : pointer)
    (m : machine) : bool * machine :=
  if port (subscription_at n m) =? expected
  then (true, store_port n desired m)
  else (false, m).

(** A straight-line block of statements, and its uninterrupted execution. *)
Definition block := list (machine -> machine).

Definition run (b : block) (m : machine) : machine :=
  fold_left (fun s stmt => stmt s) b m.

(** The callback invocation [( *subscription.callback)(subscription.ctx)]
    made while handling line [n]. *)
Definition invoke (n : Z) (fn arg : pointer) (m : machine) : machine :=
  set_calls (mk_call n fn arg :: calls m) m.

(** [void maybe_handle(uint16_t exti_number)] *)
Definition maybe_handle (exti_number : Z) (m : machine) : machine :=
  if HAL_GPIO_EXTI_GET_IT (Z.shiftl 1 exti_number) m =? RESET then m
  else
    let m := HAL_GPIO_EXTI_CLEAR_IT (Z.shiftl 1 exti_number) m in
    if N_EXTI <=? exti_number then m
    else
      let subscription := subscription_at exti_number m in
      if callback subscription =? nullptr then m
      else invoke exti_number (callback subscription) (ctx subscription) m.

(** The interrupt entry points. *)
Definition EXTI0_IRQHandler (m : machine) : machine := maybe_handle 0 m.
Definition EXTI1_IRQHandler (m : machine) : machine := maybe_handle 1 m.
Definition EXTI2_IRQHandler (m : machine) : machine := maybe_handle 2 m.
Definition EXTI3_IRQHandler (m : machine) : machine := maybe_handle 3 m.
Definition EXTI4_IRQHandler (m : machine) : machine := maybe_handle 4 m.

Definition EXTI9_5_IRQHandler (m : machine) : machine :=
  let m := maybe_handle 5 m in
  let m := maybe_handle 6 m in
  let m := maybe_handle 7 m in
  let m := maybe_handle 8 m in
  maybe_handle 9 m.

Definition EXTI15_10_IRQHandler (m : machine) : machine :=
  let m := maybe_handle 10 m in
  let m := maybe_handle 11 m in
  let m := maybe_handle 12 m in
  let m := maybe_handle 13 m in
  let m := maybe_handle 14 m in
  maybe_handle 15 m.

Inductive irq_entry :=
  | EXTI0 | EXTI1 | EXTI2 | EXTI3 | EXTI4 | EXTI9_5 | EXTI15_10.

Definition irq_handler (e : irq_entry) : machine -> machine :=
  match e with
  | EXTI0 => EXTI0_IRQHandler
  | EXTI1 => EXTI1_IRQHandler
  | EXTI2 => EXTI2_IRQHandler
  | EXTI3 => EXTI3_IRQHandler
  | EXTI4 => EXTI4_IRQHandler
  | EXTI9_5 => EXTI9_5_IRQHandler
  | EXTI15_10 => EXTI15_10_IRQHandler
  end.

(** The lines each entry point polls, in the order of its calls of
    [maybe_handle]. *)
Definition lines_of (e : irq_entry) : list Z :=
  match e with
  | EXTI0 => [0] | EXTI1 => [1] | EXTI2 => [2] | EXTI3 => [3] | EXTI4 => [4]
  | EXTI9_5 => [5; 6; 7; 8; 9]
  | EXTI15_10 => [10; 11; 12; 13; 14; 15]
  end.

(** What happens outside the program flow: the hardware latches pending
    flags of any lines, and an interrupt entry point runs. *)
Inductive event :=
  | latch (lines : Z)
  | irq (e : irq_entry).

Definition fire (e : event) (m : machine) : machine :=
  match e with
  | latch lines => set_PR (Z.lor (PR m) lines) m
  | irq e => irq_handler e m
  end.

Definition fire_all (es : list event) (m : machine) : machine :=
  fold_left (fun s e => fire e s) es m.

(** A block executed in program flow while interrupts preempt it: the
    events of the i-th entry of the schedule happen just before the i-th
    statement. *)
Fixpoint run_preempted (b : block) (sched : list (list event)) (m : machine) : machine :=
  match b with
  | [] => m
  | stmt :: b' =>
      match sched with
      | [] => run_preempted b' [] (stmt m)
      | es :: sched' => run_preempted b' sched' (stmt (fire_all es m))
      end
  end.

(** What the driver uses from [stm32_gpio.hpp] and from the vendor HAL,
    neither of which is part of the source tree: the member function
    [Stm32Gpio::get_pin_number()] and the macro [GPIO_GET_INDEX]. *)
Class Header := {
  get_pin_number : Stm32Gpio -> Z;
  GPIO_GET_INDEX : pointer -> Z
}.

Section Driver.

Context {hdr : Header}.

(** [uint32_t pin_number = get_pin_number();] *)
Definition pin_number_of (g : Stm32Gpio) : Z := u32 (get_pin_number g).

(** The statements of [subscribe] that program the line (source lines
    131 to 154). *)
Definition subscribe_configure (g : Stm32Gpio) (rising_edge falling_edge : bool) : block :=
  let pin_number := pin_number_of g in
  [ HAL_RCC_SYSCFG_CLK_ENABLE;
    (fun m =>
       let temp := EXTICR m !!! Z.to_nat (Z.shiftr pin_number 2) in
       let temp := Z.land temp (not32 (u32 (Z.shiftl 15 (4 * Z.land pin_number 3)))) in
       let temp := Z.lor temp (u32 (Z.shiftl (u32 (GPIO_GET_INDEX (port_ g)))
                                             (4 * Z.land pin_number 3))) in
       set_EXTICR (<[Z.to_nat (Z.shiftr pin_number 2) := temp]> (EXTICR m)) m);
    (fun m =>
       if rising_edge then set_RTSR (Z.lor (RTSR m) (u32 (pin_mask_ g))) m
       else set_RTSR (Z.land (RTSR m) (not32 (u32 (pin_mask_ g)))) m);
    (fun m =>
       if falling_edge then set_FTSR (Z.lor (FTSR m) (u32 (pin_mask_ g))) m
       else set_FTSR (Z.land (FTSR m) (not32 (u32 (pin_mask_ g)))) m);
    (fun m => set_EMR (Z.land (EMR m) (not32 (u32 (pin_mask_ g)))) m);
    (fun m => set_IMR (Z.lor (IMR m) (u32 (pin_mask_ g))) m);
    HAL_GPIO_EXTI_CLEAR_IT (pin_mask_ g) ].

(** The two stores that end [subscribe] (source lines 156 and 157). *)
Definition subscribe_publish (g : Stm32Gpio) (cb cx : pointer) : block :=
  let pin_number := pin_number_of g in
  [ store_ctx pin_number cx;
    store_callback pin_number cb ].

Definition subscribe_body (g : Stm32Gpio) (rising_edge falling_edge : bool)
    (cb cx : pointer) : block :=
  subscribe_configure g rising_edge falling_edge ++ subscribe_publish g cb cx.

(** [bool Stm32Gpio::subscribe(bool rising_edge, bool falling_edge,
    void ( *callback)(void* ), void* ctx)] *)
Definition subscribe (g : Stm32Gpio) (rising_edge falling_edge : bool)
    (cb cx : pointer) (m : machine) : bool * machine :=
  let pin_number := pin_number_of g in
  if N_EXTI <=? pin_number then (false, m)
  else
    let no_port := nullptr in
    match atomic_compare_exchange_port pin_number no_port (port_ g) m with
    | (false, m) => (false, m)
    | (true, m) => (true, run (subscribe_body g rising_edge falling_edge cb cx) m)
    end.

(** The statements of [unsubscribe] after its two guards (source lines
    173 to 180). *)
Definition unsubscribe_body (g : Stm32Gpio) : block :=
  let pin_number := pin_number_of g in
  [ (fun m => set_IMR (Z.lor (IMR m) (u32 (pin_mask_ g))) m);
    HAL_GPIO_EXTI_CLEAR_IT (pin_mask_ g);
    store_callback pin_number nullptr;
    store_ctx pin_number nullptr;
    store_port pin_number nullptr ].

(** [void Stm32Gpio::unsubscribe()] *)
Definition unsubscribe (g : Stm32Gpio) (m : machine) : machine :=
  let pin_number := pin_number_of g in
  if N_EXTI <=? pin_number then m
  else if negb (port (subscription_at pin_number m) =? port_ g) then m
  else run (unsubscribe_body g) m.

(** Calls into the driver from program flow, and events around them. *)
Inductive op :=
  | op_subscribe (g : Stm32Gpio) (rising_edge falling_edge : bool) (cb cx : pointer)
  | op_unsubscribe (g : Stm32Gpio)
  | op_event (e : event).

Definition exec (o : op) (m : machine) : machine :=
  match o with
  | op_subscribe g r f cb cx => snd (subscribe g r f cb cx m)
  | op_unsubscribe g => unsubscribe g m
  | op_event e => fire e m
  end.

Definition exec_all (os : list op) (m : machine) : machine :=
  fold_left (fun s o => exec o s) os m.

(** Is [o] a call of [unsubscribe] for line [n] through port [p]? *)
Definition releases (n : Z) (p : pointer) (o : op) : bool :=
  match o with
  | op_unsubscribe g => (pin_number_of g =? n) && (port_ g =? p)
  | _ => false
  end.

(** Is [o] made through a handle that has a port?  Only [subscribe] calls
    matter. *)
Definition bound_handle (o : op) : bool :=
  match o with
  | op_subscribe g _ _ _ _ => negb (port_ g =? nullptr)
  | _ => true
  end.

(** Is [o] a call of [subscribe] for line [n]? *)
Definition subscribes_on (n : Z) (o : op) : bool :=
  match o with
  | op_subscribe g _ _ _ _ => pin_number_of g =? n
  | _ => false
  end.

End Driver.

(** The configuration registers and the pending register, as one value. *)
Definition registers (m : machine) : list Z * Z * Z * Z * Z * Z * bool :=
  (EXTICR m, RTSR m, FTSR m, EMR m, IMR m, PR m, SYSCFGEN m).

(** The calls the dispatcher owes when it polls [lines] in order: one per
    line whose pending flag is set and whose slot has a callback. *)
Definition callbacks_due (lines : list Z) (m : machine) : list call :=
  flat_map
    (fun n =>
       let s := subscription_at n m in
       if Z.testbit (PR m) n && negb (callback s =? nullptr)
       then [mk_call n (callback s) (ctx s)] else [])
    lines.

(** Every slot without an owner is without a callback. *)
Definition free_slots_clean (m : machine) : Prop :=
  forall k, 0 <= k ->
    port (subscription_at k m) = nullptr -> callback (subscription_at k m) = nullptr.

(** A logged call agrees with the slot of its line in [m]. *)
Definition call_from_slot (m : machine) (c : call) : Prop :=
  call_fn c <> nullptr /\
  callback (subscription_at (call_line c) m) = call_fn c /\
  ctx (subscription_at (call_line c) m) = call_arg c.

(** A concrete board to evaluate the driver on: pin masks are
    [GPIO_PIN_n = 1 << n] and the pin number is the position of the highest
    set bit of the mask; the GPIO ports are [0x400] apart, starting at
    [GPIOA_BASE], and are numbered from 0, any other address giving 10. *)
Module Board.

Definition GPIOA_BASE : pointer := 0x40020000.
Definition GPIOA : pointer := GPIOA_BASE.
Definition GPIOB : pointer := GPIOA_BASE + 0x400.
Definition GPIOC : pointer := GPIOA_BASE + 0x800.

Definition pin_number (g : Stm32Gpio) : Z := Z.log2 (pin_mask_ g).
Definition port_index (p : pointer) : Z :=
  if p =? GPIOA then 0 else if p =? GPIOB then 1 else if p =? GPIOC then 2 else 10.

Definition PA0 : Stm32Gpio := mk_gpio GPIOA 0x0001.
Definition PA3 : Stm32Gpio := mk_gpio GPIOA 0x0008.
Definition PB3 : Stm32Gpio := mk_gpio GPIOB 0x0008.
Definition PA5 : Stm32Gpio := mk_gpio GPIOA 0x0020.
Definition PC7 : Stm32Gpio := mk_gpio GPIOC 0x0080.

(** A handle with no port on bit 3. *)
Definition unbound3 : Stm32Gpio := mk_gpio nullptr 0x0008.

(** Addresses of two application callbacks and their contexts. *)
Definition on_edge : pointer := 0x08001000.
Definition on_index : pointer := 0x08002000.
Definition axis0 : pointer := 0x20000100.
Definition axis1 : pointer := 0x20000200.

End Board.

#[global] Instance board_header : Header :=
  {| get_pin_number := Board.pin_number; GPIO_GET_INDEX := Board.port_index |}.

(** ** Interrupt numbers *)

(** The values of the HAL's [IRQn_Type] that [get_irq_number] can return;
    [IRQn_0] stands for [(IRQn_Type)0]. *)
Inductive IRQn_Type :=
  | EXTI0_IRQn | EXTI1_IRQn | EXTI2_IRQn | EXTI3_IRQn | EXTI4_IRQn
  | EXTI9_5_IRQn | EXTI15_10_IRQn | IRQn_0.

(** [IRQn_Type get_irq_number(uint16_t pin_number)] *)
Definition get_irq_number (pin_number : Z) : IRQn_Type :=
  match pin_number with
  | 0 => EXTI0_IRQn
  | 1 => EXTI1_IRQn
  | 2 => EXTI2_IRQn
  | 3 => EXTI3_IRQn
  | 4 => EXTI4_IRQn
  | 5 | 6 | 7 | 8 | 9 => EXTI9_5_IRQn
  | 10 | 11 | 12 | 13 | 14 | 15 => EXTI15_10_IRQn
  | _ => IRQn_0
  end.

(** The entry point of the source file that serves each interrupt, as the
    comments on the entry points name them ("Entrypoint for the EXTI line 0
    interrupt", ..., "EXTI lines 10-15 interrupt"). *)
Definition entry_point (i : IRQn_Type) : option irq_entry :=
  match i with
  | EXTI0_IRQn => Some EXTI0
  | EXTI1_IRQn => Some EXTI1
  | EXTI2_IRQn => Some EXTI2
  | EXTI3_IRQn => Some EXTI3
  | EXTI4_IRQn => Some EXTI4
  | EXTI9_5_IRQn => Some EXTI9_5
  | EXTI15_10_IRQn => Some EXTI15_10
  | IRQn_0 => None
  end.

(** ** Bit fields *)

(** The [w]-bit field of a register value [x] that starts at bit [s]. *)
Definition field (s w x : Z) : Z := Z.land (Z.shiftr x s) (Z.ones w).

(** The port that [SYSCFG->EXTICR] routes to EXTI line [k]: four bits per
    line, four lines per register. *)
Definition routing (k : Z) (m : machine) : Z :=
  field (4 * Z.land k 3) 4 (EXTICR m !!! Z.to_nat (Z.shiftr k 2)).

(** ** Pin configuration *)

(** The registers of one GPIO port that [config] works on. *)
Record GPIO_TypeDef := mk_port {
  MODER : Z;
  OTYPER : Z;
  OSPEEDR : Z;
  PUPDR : Z;
  AFR : list Z
}.

(** The port after reset, with all pins in input mode. *)
Definition port_reset : GPIO_TypeDef :=
  {| MODER := 0; OTYPER := 0; OSPEEDR := 0; PUPDR := 0; AFR := [0; 0] |}.

Definition set_MODER (v : Z) (p : GPIO_TypeDef) : GPIO_TypeDef :=
  mk_port v (OTYPER p) (OSPEEDR p) (PUPDR p) (AFR p).
Definition set_OTYPER (v : Z) (p : GPIO_TypeDef) : GPIO_TypeDef :=
  mk_port (MODER p) v (OSPEEDR p) (PUPDR p) (AFR p).
Definition set_OSPEEDR (v : Z) (p : GPIO_TypeDef) : GPIO_TypeDef :=
  mk_port (MODER p) (OTYPER p) v (PUPDR p) (AFR p).
Definition set_PUPDR (v : Z) (p : GPIO_TypeDef) : GPIO_TypeDef :=
  mk_port (MODER p) (OTYPER p) (OSPEEDR p) v (AFR p).
Definition set_AFR (v : list Z) (p : GPIO_TypeDef) : GPIO_TypeDef :=
  mk_port (MODER p) (OTYPER p) (OSPEEDR p) (PUPDR p) v.

(** [#define GPIO_MODE 0x00000003U] and [#define GPIO_OUTPUT_TYPE 0x00000010U] *)
Definition GPIO_MODE : Z := 0x00000003.
Definition GPIO_OUTPUT_TYPE : Z := 0x00000010.

(** What [config] uses from the header and the vendor HAL, which are not
    part of the source tree: the member function [enable_clock()] (only its
    result is modelled), the validity macros, the mode constants and the
    field masks of pin 0. *)
Class Hal := {
  enable_clock : Stm32Gpio -> bool;
  IS_GPIO_AF : Z -> bool;
  IS_GPIO_SPEED : Z -> bool;
  GPIO_MODE_OUTPUT_PP : Z;
  GPIO_MODE_OUTPUT_OD : Z;
  GPIO_MODE_AF_PP : Z;
  GPIO_MODE_AF_OD : Z;
  GPIO_MODER_MODER0 : Z;
  GPIO_PUPDR_PUPDR0 : Z;
  GPIO_OSPEEDER_OSPEEDR0 : Z;
  GPIO_OTYPER_OT_0 : Z
}.

Section Config.

Context {hdr : Header} {hal : Hal}.

(** [(mode == GPIO_MODE_AF_PP) || (mode == GPIO_MODE_AF_OD)] *)
Definition is_alternate (mode : Z) : bool :=
  (mode =? GPIO_MODE_AF_PP) || (mode =? GPIO_MODE_AF_OD).

(** [(mode == GPIO_MODE_OUTPUT_PP) || (mode == GPIO_MODE_AF_PP) ||
     (mode == GPIO_MODE_OUTPUT_OD) || (mode == GPIO_MODE_AF_OD)] *)
Definition is_driven (mode : Z) : bool :=
  (mode =? GPIO_MODE_OUTPUT_PP) || (mode =? GPIO_MODE_AF_PP) ||
  (mode =? GPIO_MODE_OUTPUT_OD) || (mode =? GPIO_MODE_AF_OD).

(** Source lines 74 to 77: the alternate function of the pin. *)
Definition write_AFR (position alternate_function : Z) (p : GPIO_TypeDef) : GPIO_TypeDef :=
  let temp := AFR p !!! Z.to_nat (Z.shiftr position 3) in
  let temp := Z.land temp (not32 (u32 (Z.shiftl 0xF (Z.land position 0x07 * 4)))) in
  let temp := Z.lor temp (u32 (Z.shiftl alternate_function (Z.land position 0x07 * 4))) in
  set_AFR (<[Z.to_nat (Z.shiftr position 3) := temp]> (AFR p)) p.

(** Source lines 81 to 84: the direction mode of the pin. *)
Definition write_MODER (position mode : Z) (p : GPIO_TypeDef) : GPIO_TypeDef :=
  let temp := MODER p in
  let temp := Z.land temp (not32 (u32 (Z.shiftl GPIO_MODER_MODER0 (position * 2)))) in
  let temp := Z.lor temp (u32 (Z.shiftl (Z.land mode GPIO_MODE) (position * 2))) in
  set_MODER temp p.

(** Source lines 96 to 99: the speed of the pin. *)
Definition write_OSPEEDR (position speed : Z) (p : GPIO_TypeDef) : GPIO_TypeDef :=
  let temp := OSPEEDR p in
  let temp := Z.land temp (not32 (u32 (Z.shiftl GPIO_OSPEEDER_OSPEEDR0 (position * 2)))) in
  let temp := Z.lor temp (u32 (Z.shiftl speed (position * 2))) in
  set_OSPEEDR temp p.

(** Source lines 102 to 105: the output type of the pin. *)
Definition write_OTYPER (position mode : Z) (p : GPIO_TypeDef) : GPIO_TypeDef :=
  let temp := OTYPER p in
  let temp := Z.land temp (not32 (u32 (Z.shiftl GPIO_OTYPER_OT_0 position))) in
  let temp := Z.lor temp
                (u32 (Z.shiftl (Z.shiftr (Z.land mode GPIO_OUTPUT_TYPE) 4) position)) in
  set_OTYPER temp p.

(** Source lines 109 to 112: the pull resistor of the pin. *)
Definition write_PUPDR (position pull : Z) (p : GPIO_TypeDef) : GPIO_TypeDef :=
  let temp := PUPDR p in
  let temp := Z.land temp (not32 (u32 (Z.shiftl GPIO_PUPDR_PUPDR0 (position * 2)))) in
  let temp := Z.lor temp (u32 (Z.shiftl pull (position * 2))) in
  set_PUPDR temp p.

(** [bool Stm32Gpio::config(uint32_t mode, uint32_t pull, uint32_t speed,
    uint32_t alternate_function) const], on the registers [*port_]. *)
Definition config (g : Stm32Gpio) (mode pull speed alternate_function : Z)
    (p : GPIO_TypeDef) : bool * GPIO_TypeDef :=
  if negb (enable_clock g) then (false, p)
  else
    let position := pin_number_of g in
    if is_alternate mode && negb (IS_GPIO_AF alternate_function) then (false, p)
    else
      let p := if is_alternate mode then write_AFR position alternate_function p else p in
      let p := write_MODER position mode p in
      if is_driven mode && negb (IS_GPIO_SPEED speed) then (false, p)
      else
        let p := if is_driven mode
                 then write_OTYPER position mode (write_OSPEEDR position speed p)
                 else p in
        let p := write_PUPDR position pull p in
        (true, p).

End Config.

(** The two bits that pin [q] has in [MODER], [OSPEEDR] and [PUPDR], and
    the four bits it has in [AFR] (eight pins per register). *)
Definition pin_bits (q x : Z) : Z := field (q * 2) 2 x.
Definition pin_alternate (q : Z) (p : GPIO_TypeDef) : Z :=
  field (Z.land q 7 * 4) 4 (AFR p !!! Z.to_nat (Z.shiftr q 3)).

(** Every pin but [pos] has in [p'] the mode, speed, pull, output type and
    alternate function it has in [p]. *)
Definition keeps_other_pins (pos : Z) (p p' : GPIO_TypeDef) : Prop :=
  forall q, 0 <= q < 16 -> q <> pos ->
    pin_bits q (MODER p') = pin_bits q (MODER p) /\
    pin_bits q (OSPEEDR p') = pin_bits q (OSPEEDR p) /\
    pin_bits q (PUPDR p') = pin_bits q (PUPDR p) /\
    Z.testbit (OTYPER p') q = Z.testbit (OTYPER p) q /\
    pin_alternate q p' = pin_alternate q p.

(** The HAL of the STM32F4 family on the concrete board. *)
#[global] Instance board_hal : Hal :=
  {| enable_clock g :=
       (port_ g =? Board.GPIOA) || (port_ g =? Board.GPIOB) || (port_ g =? Board.GPIOC);
     IS_GPIO_AF x := x <=? 0x0F;
     IS_GPIO_SPEED x := x <=? 0x03;
     GPIO_MODE_OUTPUT_PP := 0x01;
     GPIO_MODE_OUTPUT_OD := 0x11;
     GPIO_MODE_AF_PP := 0x02;
     GPIO_MODE_AF_OD := 0x12;
     GPIO_MODER_MODER0 := 0x3;
     GPIO_PUPDR_PUPDR0 := 0x3;
     GPIO_OSPEEDER_OSPEEDR0 := 0x3;
     GPIO_OTYPER_OT_0 := 0x1 |}.

(** What program flow settles and interrupts leave alone: the table and
    the routing, trigger and mask registers (all but the pending register
    and the call log). *)
Definition settled (m : machine) :
    list subscription_t * list Z * Z * Z * Z * Z * bool :=
  (subscriptions m, EXTICR m, RTSR m, FTSR m, EMR m, IMR m, SYSCFGEN m).

(** ** Bit-level facts *)

Lemma testbit_u32 x i : Z.testbit (u32 x) i = (i <? 32) && Z.testbit x i.
Proof. unfold u32. apply Z.testbit_mod_pow2. lia. Qed.

Lemma testbit_not32 x i :
  0 <= i -> Z.testbit (not32 x) i = (i <? 32) && negb (Z.testbit x i).
Proof.
  intros Hi. unfold not32. rewrite testbit_u32, Z.lnot_spec by lia. reflexivity.
Qed.

Lemma testbit_one_hot n i :
  0 <= n -> 0 <= i -> Z.testbit (Z.shiftl 1 n) i = (i =? n).
Proof.
  intros Hn Hi. rewrite Z.shiftl_1_l, Z.pow2_bits_eqb by lia.
  apply Z.eqb_sym.
Qed.

Lemma u32_nonneg x : 0 <= u32 x.
Proof. unfold u32. apply Z.mod_pos_bound. lia. Qed.

Lemma shiftl_1_neg n : n < 0 -> Z.shiftl 1 n = 0.
Proof.
  intros Hn. apply Z.bits_inj'. intros i Hi.
  rewrite Z.shiftl_spec, Z.bits_0 by lia.
  destruct (Z.eq_dec (i - n) 0) as [E | E]; [lia |].
  replace 1 with (2 ^ 0) by reflexivity. apply Z.pow2_bits_false. lia.
Qed.

(** The flag test of the dispatcher reads exactly the line's pending bit
    (for the 32 bits the register has). *)
Lemma GET_IT_one_hot n m :
  (HAL_GPIO_EXTI_GET_IT (Z.shiftl 1 n) m =? RESET) =
  negb (Z.testbit (PR m) n && (n <? 32)).
Proof.
  unfold HAL_GPIO_EXTI_GET_IT, RESET.
  destruct (Z.ltb_spec n 0) as [Hneg | Hn].
  - rewrite shiftl_1_neg by lia. rewrite Z.testbit_neg_r by lia.
    unfold u32. rewrite Z.mod_0_l by lia. rewrite Z.land_0_r. reflexivity.
  - destruct (Z.testbit (PR m) n && (n <? 32)) eqn:E; simpl.
    + apply Z.eqb_neq. intros H0.
      apply andb_true_iff in E as [E1 E2].
      assert (F : Z.testbit (Z.land (PR m) (u32 (Z.shiftl 1 n))) n = true).
      { rewrite Z.land_spec, testbit_u32, testbit_one_hot, E1, E2, Z.eqb_refl by lia.
        reflexivity. }
      rewrite H0, Z.bits_0 in F. discriminate.
    + apply Z.eqb_eq. apply Z.bits_inj'. intros i Hi.
      rewrite Z.land_spec, testbit_u32, testbit_one_hot, Z.bits_0 by lia.
      destruct (Z.eqb_spec i n) as [-> | Hne].
      * rewrite andb_true_r. exact E.
      * rewrite andb_false_r, andb_false_r. reflexivity.
Qed.

(** ** The table: reads after stores *)

Lemma subscription_at_out_of_range n m :
  (length (subscriptions m) <= Z.to_nat n)%nat ->
  subscription_at n m = no_subscription.
Proof.
  intros H. unfold subscription_at. rewrite list_lookup_total_alt.
  rewrite (proj2 (lookup_ge_None _ _) H). reflexivity.
Qed.

Lemma subscription_at_update n k s m :
  subscription_at k (set_subscriptions (<[Z.to_nat n := s]> (subscriptions m)) m) =
  if decide (Z.to_nat n = Z.to_nat k /\ (Z.to_nat n < length (subscriptions m))%nat)
  then s else subscription_at k m.
Proof. unfold subscription_at. simpl. apply list_lookup_total_insert. Qed.

Lemma subscription_at_other n k s m :
  0 <= n -> 0 <= k -> k <> n ->
  subscription_at k (set_subscriptions (<[Z.to_nat n := s]> (subscriptions m)) m) =
  subscription_at k m.
Proof.
  intros Hn Hk Hne. rewrite subscription_at_update.
  case_decide as H; [| reflexivity]. destruct H as [H _]. lia.
Qed.

Lemma callback_after_store_port n v k m :
  callback (subscription_at k (store_port n v m)) = callback (subscription_at k m).
Proof.
  unfold store_port. rewrite subscription_at_update.
  case_decide as H; [| reflexivity]. destruct H as [H _].
  unfold subscription_at. rewrite H. reflexivity.
Qed.

Lemma ctx_after_store_port n v k m :
  ctx (subscription_at k (store_port n v m)) = ctx (subscription_at k m).
Proof.
  unfold store_port. rewrite subscription_at_update.
  case_decide as H; [| reflexivity]. destruct H as [H _].
  unfold subscription_at. rewrite H. reflexivity.
Qed.

Lemma callback_after_store_ctx n v k m :
  callback (subscription_at k (store_ctx n v m)) = callback (subscription_at k m).
Proof.
  unfold store_ctx. rewrite subscription_at_update.
  case_decide as H; [| reflexivity]. destruct H as [H _].
  unfold subscription_at. rewrite H. reflexivity.
Qed.

Lemma port_after_store_ctx n v k m :
  port (subscription_at k (store_ctx n v m)) = port (subscription_at k m).
Proof.
  unfold store_ctx. rewrite subscription_at_update.
  case_decide as H; [| reflexivity]. destruct H as [H _].
  unfold subscription_at. rewrite H. reflexivity.
Qed.

Lemma port_after_store_callback n v k m :
  port (subscription_at k (store_callback n v m)) = port (subscription_at k m).
Proof.
  unfold store_callback. rewrite subscription_at_update.
  case_decide as H; [| reflexivity]. destruct H as [H _].
  unfold subscription_at. rewrite H. reflexivity.
Qed.

Lemma ctx_after_store_callback n v k m :
  ctx (subscription_at k (store_callback n v m)) = ctx (subscription_at k m).
Proof.
  unfold store_callback. rewrite subscription_at_update.
  case_decide as H; [| reflexivity]. destruct H as [H _].
  unfold subscription_at. rewrite H. reflexivity.
Qed.

Lemma port_after_store_port n v m :
  (Z.to_nat n < length (subscriptions m))%nat ->
  port (subscription_at n (store_port n v m)) = v.
Proof.
  intros H. unfold store_port. rewrite subscription_at_update.
  case_decide as D; [reflexivity | ]. exfalso. apply D. auto.
Qed.

Lemma ctx_after_store_ctx n v m :
  (Z.to_nat n < length (subscriptions m))%nat ->
  ctx (subscription_at n (store_ctx n v m)) = v.
Proof.
  intros H. unfold store_ctx. rewrite subscription_at_update.
  case_decide as D; [reflexivity | ]. exfalso. apply D. auto.
Qed.

Lemma callback_after_store_callback n v m :
  (Z.to_nat n < length (subscriptions m))%nat ->
  callback (subscription_at n (store_callback n v m)) = v.
Proof.
  intros H. unfold store_callback. rewrite subscription_at_update.
  case_decide as D; [reflexivity | ]. exfalso. apply D. auto.
Qed.

Lemma callback_cleared n m :
  callback (subscription_at n (store_callback n nullptr m)) = nullptr.
Proof.
  destruct (Nat.lt_ge_cases (Z.to_nat n) (length (subscriptions m))) as [H | H].
  - apply callback_after_store_callback, H.
  - rewrite subscription_at_out_of_range; [reflexivity |].
    unfold store_callback. simpl. rewrite length_insert. exact H.
Qed.

Lemma length_store_port n v m :
  length (subscriptions (store_port n v m)) = length (subscriptions m).
Proof. unfold store_port. simpl. apply length_insert. Qed.

Lemma length_store_ctx n v m :
  length (subscriptions (store_ctx n v m)) = length (subscriptions m).
Proof. unfold store_ctx. simpl. apply length_insert. Qed.

Lemma length_store_callback n v m :
  length (subscriptions (store_callback n v m)) = length (subscriptions m).
Proof. unfold store_callback. simpl. apply length_insert. Qed.

Lemma run_app b1 b2 m : run (b1 ++ b2) m = run b2 (run b1 m).
Proof. unfold run. apply fold_left_app. Qed.

(** ** The dispatcher *)

Lemma maybe_handle_not_pending n m :
  Z.testbit (PR m) n = false -> maybe_handle n m = m.
Proof.
  intros H. unfold maybe_handle. rewrite GET_IT_one_hot, H. reflexivity.
Qed.

Lemma maybe_handle_subscriptions n m :
  subscriptions (maybe_handle n m) = subscriptions m.
Proof.
  unfold maybe_handle.
  repeat match goal with |- context [if ?b then _ else _] => destruct b end;
    reflexivity.
Qed.

Lemma maybe_handle_registers n m :
  (EXTICR (maybe_handle n m), RTSR (maybe_handle n m), FTSR (maybe_handle n m),
   EMR (maybe_handle n m), IMR (maybe_handle n m), SYSCFGEN (maybe_handle n m)) =
  (EXTICR m, RTSR m, FTSR m, EMR m, IMR m, SYSCFGEN m).
Proof.
  unfold maybe_handle.
  repeat match goal with |- context [if ?b then _ else _] => destruct b end;
    reflexivity.
Qed.

(** What one poll of line [n] adds to the log. *)
Lemma maybe_handle_calls n m :
  n < N_EXTI ->
  calls (maybe_handle n m) = callbacks_due [n] m ++ calls m.
Proof.
  intros Hn. unfold maybe_handle, callbacks_due. simpl flat_map.
  rewrite GET_IT_one_hot.
  assert (H32 : (n <? 32) = true) by (apply Z.ltb_lt; unfold N_EXTI in Hn; lia).
  rewrite H32, andb_true_r.
  destruct (Z.testbit (PR m) n); simpl; [| reflexivity].
  destruct (Z.leb_spec N_EXTI n) as [Hge | _]; [lia |].
  change (subscription_at n (HAL_GPIO_EXTI_CLEAR_IT (Z.shiftl 1 n) m))
    with (subscription_at n m).
  destruct (callback (subscription_at n m) =? nullptr); reflexivity.
Qed.

(** One poll clears the polled line's flag and no other. *)
Lemma maybe_handle_pending n k m :
  0 <= k < 32 ->
  Z.testbit (PR (maybe_handle n m)) k =
  Z.testbit (PR m) k && negb (k =? n).
Proof.
  intros Hk. unfold maybe_handle. rewrite GET_IT_one_hot.
  destruct (Z.testbit (PR m) n && (n <? 32)) eqn:E; simpl.
  - apply andb_true_iff in E as [E1 E2]. apply Z.ltb_lt in E2.
    assert (0 <= n).
    { destruct (Z.ltb_spec n 0); [| assumption].
      rewrite Z.testbit_neg_r in E1 by assumption. discriminate. }
    assert (P : PR (HAL_GPIO_EXTI_CLEAR_IT (Z.shiftl 1 n) m) =
                Z.land (PR m) (not32 (u32 (Z.shiftl 1 n)))) by reflexivity.
    assert (Z.testbit (Z.land (PR m) (not32 (u32 (Z.shiftl 1 n)))) k =
            Z.testbit (PR m) k && negb (k =? n)) as R.
    { rewrite Z.land_spec, testbit_not32, testbit_u32, testbit_one_hot by lia.
      replace (k <? 32) with true by (symmetry; apply Z.ltb_lt; lia).
      reflexivity. }
    repeat match goal with |- context [if ?b then _ else _] => destruct b end;
      simpl; try rewrite P; exact R.
  - destruct (Z.eqb_spec k n) as [-> | Hne]; simpl.
    + replace (n <? 32) with true in E by (symmetry; apply Z.ltb_lt; lia).
      rewrite andb_true_r in E. rewrite E. reflexivity.
    + rewrite andb_true_r. reflexivity.
Qed.

Lemma call_from_slot_same_table m m' c :
  subscriptions m' = subscriptions m -> call_from_slot m c -> call_from_slot m' c.
Proof.
  unfold call_from_slot, subscription_at. intros ->. exact id.
Qed.

Lemma callbacks_due_from_slot ls m : Forall (call_from_slot m) (callbacks_due ls m).
Proof.
  unfold callbacks_due. induction ls as [| n ls IH]; simpl; [constructor |].
  apply Forall_app. split; [| exact IH].
  destruct (Z.testbit (PR m) n); simpl; [| constructor].
  destruct (Z.eqb_spec (callback (subscription_at n m)) nullptr) as [E | E]; simpl;
    constructor; [| constructor].
  unfold call_from_slot. simpl. auto.
Qed.

(** Every call one poll logs is the one installed in the polled slot. *)
Lemma maybe_handle_log n m :
  exists new, calls (maybe_handle n m) = new ++ calls m /\
              Forall (fun c => call_line c = n /\ call_from_slot m c) new.
Proof.
  destruct (Z.lt_ge_cases n N_EXTI) as [Hn | Hn].
  - exists (callbacks_due [n] m). split; [apply maybe_handle_calls, Hn |].
    unfold callbacks_due. simpl. rewrite app_nil_r.
    destruct (Z.testbit (PR m) n); simpl; [| constructor].
    destruct (Z.eqb_spec (callback (subscription_at n m)) nullptr) as [E | E]; simpl;
      constructor; [| constructor].
    unfold call_from_slot. simpl. auto.
  - exists []. split; [| constructor]. unfold maybe_handle.
    destruct (HAL_GPIO_EXTI_GET_IT (Z.shiftl 1 n) m =? RESET); [reflexivity |].
    destruct (Z.leb_spec N_EXTI n); [reflexivity | lia].
Qed.

Lemma irq_handler_subscriptions e m :
  subscriptions (irq_handler e m) = subscriptions m.
Proof.
  destruct e; simpl;
    unfold EXTI0_IRQHandler, EXTI1_IRQHandler, EXTI2_IRQHandler, EXTI3_IRQHandler,
      EXTI4_IRQHandler, EXTI9_5_IRQHandler, EXTI15_10_IRQHandler;
    cbv zeta; repeat rewrite maybe_handle_subscriptions; reflexivity.
Qed.

Lemma polls_log (ls : list Z) m :
  subscriptions (fold_left (fun s n => maybe_handle n s) ls m) = subscriptions m /\
  exists new, calls (fold_left (fun s n => maybe_handle n s) ls m) = new ++ calls m /\
              Forall (call_from_slot m) new.
Proof.
  revert m. induction ls as [| n ls IH]; intros m; simpl.
  - split; [reflexivity |]. exists []. split; [reflexivity | constructor].
  - destruct (IH (maybe_handle n m)) as (Hs & new & Hc & Hf).
    destruct (maybe_handle_log n m) as (new0 & Hc0 & Hf0).
    split; [rewrite Hs; apply maybe_handle_subscriptions |].
    exists (new ++ new0). split.
    + rewrite Hc, Hc0. apply app_assoc.
    + apply Forall_app. split.
      * eapply Forall_impl; [exact Hf |]. intros c.
        apply call_from_slot_same_table. symmetry. apply maybe_handle_subscriptions.
      * eapply Forall_impl; [exact Hf0 |]. intros c [_ H]. exact H.
Qed.

Lemma irq_handler_polls e m :
  irq_handler e m = fold_left (fun s n => maybe_handle n s) (lines_of e) m.
Proof. destruct e; reflexivity. Qed.

Lemma fire_subscriptions e m : subscriptions (fire e m) = subscriptions m.
Proof. destruct e; simpl; [reflexivity | apply irq_handler_subscriptions]. Qed.

Lemma fire_log e m :
  exists new, calls (fire e m) = new ++ calls m /\ Forall (call_from_slot m) new.
Proof.
  destruct e as [lines | e]; simpl.
  - exists []. split; [reflexivity | constructor].
  - rewrite irq_handler_polls. apply polls_log.
Qed.

Lemma fire_all_subscriptions es m : subscriptions (fire_all es m) = subscriptions m.
Proof.
  unfold fire_all. revert m. induction es as [| e es IH]; intros m; simpl;
    [reflexivity |]. rewrite IH. apply fire_subscriptions.
Qed.

Lemma fire_all_log es m :
  exists new, calls (fire_all es m) = new ++ calls m /\ Forall (call_from_slot m) new.
Proof.
  unfold fire_all. revert m. induction es as [| e es IH]; intros m; simpl.
  - exists []. split; [reflexivity | constructor].
  - destruct (IH (fire e m)) as (new & Hc & Hf).
    destruct (fire_log e m) as (new0 & Hc0 & Hf0).
    exists (new ++ new0). split.
    + rewrite Hc, Hc0. apply app_assoc.
    + apply Forall_app. split; [| exact Hf0].
      eapply Forall_impl; [exact Hf |]. intros c.
      apply call_from_slot_same_table. symmetry. apply fire_subscriptions.
Qed.

(** A slot without a callback gets no call. *)
Lemma from_slot_off_line n m c :
  callback (subscription_at n m) = nullptr -> call_from_slot m c -> call_line c <> n.
Proof.
  intros Hq (Hnz & Hcb & _) E. rewrite E, Hq in Hcb. auto.
Qed.

(** ** Subscribe and unsubscribe *)

Section DriverFacts.

Context {hdr : Header}.

Lemma pin_nonneg g : 0 <= pin_number_of g.
Proof. apply u32_nonneg. Qed.

Lemma configure_subscriptions g r f m :
  subscriptions (run (subscribe_configure g r f) m) = subscriptions m.
Proof. unfold run. simpl. destruct r, f; reflexivity. Qed.

Lemma configure_calls g r f m :
  calls (run (subscribe_configure g r f) m) = calls m.
Proof. unfold run. simpl. destruct r, f; reflexivity. Qed.

Lemma publish_registers g cb cx m :
  registers (run (subscribe_publish g cb cx) m) = registers m.
Proof. reflexivity. Qed.

Lemma run_body g r f cb cx m :
  run (subscribe_body g r f cb cx) m =
  store_callback (pin_number_of g) cb
    (store_ctx (pin_number_of g) cx (run (subscribe_configure g r f) m)).
Proof. unfold subscribe_body. rewrite run_app. reflexivity. Qed.

(** The three ways [subscribe] can go. *)
Lemma subscribe_cases g r f cb cx m :
  (N_EXTI <= pin_number_of g /\ subscribe g r f cb cx m = (false, m)) \/
  (pin_number_of g < N_EXTI /\ port (subscription_at (pin_number_of g) m) <> nullptr /\
   subscribe g r f cb cx m = (false, m)) \/
  (pin_number_of g < N_EXTI /\ port (subscription_at (pin_number_of g) m) = nullptr /\
   subscribe g r f cb cx m =
     (true, run (subscribe_body g r f cb cx) (store_port (pin_number_of g) (port_ g) m))).
Proof.
  unfold subscribe, atomic_compare_exchange_port.
  destruct (Z.leb_spec N_EXTI (pin_number_of g)) as [H | H]; [left; auto | right].
  destruct (Z.eqb_spec (port (subscription_at (pin_number_of g) m)) nullptr) as [E | E];
    [right | left]; auto.
Qed.

Lemma subscribe_calls g r f cb cx m :
  calls (snd (subscribe g r f cb cx m)) = calls m.
Proof.
  destruct (subscribe_cases g r f cb cx m) as [[_ ->] | [(_ & _ & ->) | (_ & _ & ->)]];
    try reflexivity.
  cbn [snd]. rewrite run_body.
  change (calls (run (subscribe_configure g r f) (store_port (pin_number_of g) (port_ g) m)) =
          calls m).
  rewrite configure_calls. reflexivity.
Qed.

Lemma subscribe_other_slot g r f cb cx m k :
  0 <= k -> k <> pin_number_of g ->
  subscription_at k (snd (subscribe g r f cb cx m)) = subscription_at k m.
Proof.
  intros Hk Hne. pose proof (pin_nonneg g) as Hp.
  destruct (subscribe_cases g r f cb cx m) as [[_ ->] | [(_ & _ & ->) | (_ & _ & ->)]];
    try reflexivity.
  cbn [snd]. rewrite run_body.
  unfold store_callback at 1. rewrite subscription_at_other by assumption.
  unfold store_ctx at 1. rewrite subscription_at_other by assumption.
  unfold subscription_at. rewrite configure_subscriptions.
  unfold store_port.
  apply (subscription_at_other (pin_number_of g) k); assumption.
Qed.

(** After a successful [subscribe] on a table that has the line's slot,
    the slot holds the caller's port, callback and context. *)
Lemma subscribe_slot g r f cb cx m m' :
  (Z.to_nat (pin_number_of g) < length (subscriptions m))%nat ->
  subscribe g r f cb cx m = (true, m') ->
  subscription_at (pin_number_of g) m' = mk_subscription (port_ g) cb cx.
Proof.
  intros Hlen H.
  destruct (subscribe_cases g r f cb cx m) as [[_ E] | [(_ & _ & E) | (_ & _ & E)]];
    rewrite E in H; try discriminate.
  assert (Hm : m' = run (subscribe_body g r f cb cx) (store_port (pin_number_of g) (port_ g) m))
    by congruence.
  subst m'. rewrite run_body.
  set (c := run (subscribe_configure g r f) (store_port (pin_number_of g) (port_ g) m)).
  assert (Hc : subscriptions c = subscriptions (store_port (pin_number_of g) (port_ g) m))
    by apply configure_subscriptions.
  assert (Hl : (Z.to_nat (pin_number_of g) < length (subscriptions c))%nat)
    by (rewrite Hc, length_store_port; exact Hlen).
  assert (Hl' : (Z.to_nat (pin_number_of g) < length (subscriptions (store_ctx (pin_number_of g) cx c)))%nat)
    by (rewrite length_store_ctx; exact Hl).
  destruct (subscription_at (pin_number_of g) (store_callback (pin_number_of g) cb (store_ctx (pin_number_of g) cx c)))
    as [p0 cb0 cx0] eqn:S.
  assert (P : port (subscription_at (pin_number_of g)
                 (store_callback (pin_number_of g) cb (store_ctx (pin_number_of g) cx c))) = port_ g).
  { rewrite port_after_store_callback, port_after_store_ctx.
    unfold subscription_at. rewrite Hc.
    apply (port_after_store_port (pin_number_of g) (port_ g) m Hlen). }
  assert (C : callback (subscription_at (pin_number_of g)
                 (store_callback (pin_number_of g) cb (store_ctx (pin_number_of g) cx c))) = cb)
    by (apply callback_after_store_callback, Hl').
  assert (X : ctx (subscription_at (pin_number_of g)
                 (store_callback (pin_number_of g) cb (store_ctx (pin_number_of g) cx c))) = cx)
    by (rewrite ctx_after_store_callback; apply ctx_after_store_ctx, Hl).
  rewrite S in P, C, X. simpl in P, C, X. subst. reflexivity.
Qed.

Lemma subscribe_length g r f cb cx m :
  length (subscriptions (snd (subscribe g r f cb cx m))) = length (subscriptions m).
Proof.
  destruct (subscribe_cases g r f cb cx m) as [[_ ->] | [(_ & _ & ->) | (_ & _ & ->)]];
    try reflexivity.
  cbn [snd]. rewrite run_body, length_store_callback, length_store_ctx,
    configure_subscriptions. apply length_store_port.
Qed.

(** The effect of [unsubscribe] when both guards pass. *)
Lemma run_unsubscribe_body g m :
  run (unsubscribe_body g) m =
  mk_machine (<[Z.to_nat (pin_number_of g) := no_subscription]> (subscriptions m))
    (EXTICR m) (RTSR m) (FTSR m) (EMR m)
    (Z.lor (IMR m) (u32 (pin_mask_ g)))
    (Z.land (PR m) (not32 (u32 (pin_mask_ g))))
    (SYSCFGEN m) (calls m).
Proof.
  unfold run, unsubscribe_body. simpl.
  unfold store_port, store_ctx, store_callback, set_subscriptions, subscription_at.
  simpl. f_equal.
  destruct (Nat.lt_ge_cases (Z.to_nat (pin_number_of g)) (length (subscriptions m))) as [H | H].
  - rewrite !list_insert_insert_eq.
    rewrite !list_lookup_total_insert_eq by (rewrite ?length_insert; exact H).
    reflexivity.
  - rewrite !list_insert_ge by (rewrite ?length_insert; exact H). reflexivity.
Qed.

Lemma unsubscribe_cases g m :
  ((N_EXTI <= pin_number_of g \/ port (subscription_at (pin_number_of g) m) <> port_ g) /\
   unsubscribe g m = m) \/
  (pin_number_of g < N_EXTI /\ port (subscription_at (pin_number_of g) m) = port_ g /\
   unsubscribe g m = run (unsubscribe_body g) m).
Proof.
  unfold unsubscribe.
  destruct (Z.leb_spec N_EXTI (pin_number_of g)) as [H | H]; [left; auto |].
  destruct (Z.eqb_spec (port (subscription_at (pin_number_of g) m)) (port_ g)) as [E | E];
    simpl; [right | left]; auto.
Qed.

(** When both guards pass, [unsubscribe] ORs the pin's mask into the
    interrupt mask register and clears the flags the mask selects. *)
Lemma unsubscribe_mask_and_pending g m :
  pin_number_of g < N_EXTI ->
  port (subscription_at (pin_number_of g) m) = port_ g ->
  IMR (unsubscribe g m) = Z.lor (IMR m) (u32 (pin_mask_ g)) /\
  PR (unsubscribe g m) = Z.land (PR m) (not32 (u32 (pin_mask_ g))).
Proof.
  intros Hn Hown.
  destruct (unsubscribe_cases g m) as [[[Hbad | Hbad] _] | (_ & _ & ->)];
    [lia | contradiction |].
  rewrite run_unsubscribe_body. split; reflexivity.
Qed.

Lemma unsubscribe_calls g m : calls (unsubscribe g m) = calls m.
Proof.
  destruct (unsubscribe_cases g m) as [[_ ->] | (_ & _ & ->)]; [reflexivity |].
  rewrite run_unsubscribe_body. reflexivity.
Qed.

Lemma unsubscribe_other_slot g m k :
  0 <= k -> k <> pin_number_of g -> subscription_at k (unsubscribe g m) = subscription_at k m.
Proof.
  intros Hk Hne. pose proof (pin_nonneg g) as Hp.
  destruct (unsubscribe_cases g m) as [[_ ->] | (_ & _ & ->)]; [reflexivity |].
  rewrite run_unsubscribe_body.
  apply (subscription_at_other (pin_number_of g) k); assumption.
Qed.

Lemma unsubscribe_keeps_quiet g m k :
  callback (subscription_at k m) = nullptr ->
  callback (subscription_at k (unsubscribe g m)) = nullptr.
Proof.
  intros Hq.
  destruct (unsubscribe_cases g m) as [[_ ->] | (_ & _ & ->)]; [exact Hq |].
  rewrite run_unsubscribe_body. unfold subscription_at. cbn [subscriptions].
  rewrite list_lookup_total_insert.
  case_decide; [reflexivity | exact Hq].
Qed.

End DriverFacts.

(** ** Properties of the subscription interface *)

Section Subscription.

Context {hdr : Header}.

(** C4: when the line number computed from the pin is outside 0-15,
    [subscribe] returns false at once; the table (owner, callback and
    context of every slot) and every register are as before. *)
Theorem subscribe_invalid_line_rejected g r f cb cx m :
  N_EXTI <= pin_number_of g -> subscribe g r f cb cx m = (false, m).
Proof.
  intros H. unfold subscribe.
  destruct (Z.leb_spec N_EXTI (pin_number_of g)); [reflexivity | lia].
Qed.

(** C9: when the slot of the pin's line already has an owner, so that the
    compare-exchange fails, [subscribe] returns false and the whole state
    (routing, trigger, mask and pending registers, and the slot's owner,
    callback and context) is exactly what it was. *)
Theorem subscribe_busy_is_atomic g r f cb cx m :
  pin_number_of g < N_EXTI ->
  port (subscription_at (pin_number_of g) m) <> nullptr ->
  fst (atomic_compare_exchange_port (pin_number_of g) nullptr (port_ g) m) = false /\
  subscribe g r f cb cx m = (false, m).
Proof.
  intros Hn Hown. unfold subscribe, atomic_compare_exchange_port.
  destruct (Z.leb_spec N_EXTI (pin_number_of g)); [lia |].
  destruct (Z.eqb_spec (port (subscription_at (pin_number_of g) m)) nullptr);
    [contradiction | split; reflexivity].
Qed.

(** C5: [unsubscribe] always returns; when the line number is invalid or
    the slot's owner is not the pin's port it changes nothing at all;
    calling it twice in a row gives the same state as calling it once;
    and it never changes the slot of another line. *)
Theorem unsubscribe_total_idempotent g m :
  ((N_EXTI <= pin_number_of g \/ port (subscription_at (pin_number_of g) m) <> port_ g) ->
   unsubscribe g m = m) /\
  unsubscribe g (unsubscribe g m) = unsubscribe g m /\
  (forall k, 0 <= k -> k <> pin_number_of g ->
     subscription_at k (unsubscribe g m) = subscription_at k m).
Proof.
  split; [| split].
  - intros H. unfold unsubscribe.
    destruct (Z.leb_spec N_EXTI (pin_number_of g)) as [| Hlt]; [reflexivity |].
    destruct H as [H | H]; [lia |].
    destruct (Z.eqb_spec (port (subscription_at (pin_number_of g) m)) (port_ g));
      [contradiction | reflexivity].
  - destruct (unsubscribe_cases g m) as [[_ E] | (Hlt & Hown & E)];
      [rewrite E; exact E |].
    rewrite E.
    destruct (unsubscribe_cases g
                (run (unsubscribe_body g) m))
      as [[_ E'] | (_ & _ & E')]; [exact E' |].
    rewrite E'. rewrite !run_unsubscribe_body. cbn.
    rewrite list_insert_insert_eq.
    rewrite <- Z.lor_assoc, Z.lor_diag, <- Z.land_assoc, Z.land_diag.
    reflexivity.
  - intros k Hk Hne. apply unsubscribe_other_slot; assumption.
Qed.

Lemma subscribe_triggers g r f cb cx m m' :
  subscribe g r f cb cx m = (true, m') ->
  RTSR m' = (if r then Z.lor (RTSR m) (u32 (pin_mask_ g))
             else Z.land (RTSR m) (not32 (u32 (pin_mask_ g)))) /\
  FTSR m' = (if f then Z.lor (FTSR m) (u32 (pin_mask_ g))
             else Z.land (FTSR m) (not32 (u32 (pin_mask_ g)))).
Proof.
  intros H.
  destruct (subscribe_cases g r f cb cx m)
    as [[_ E] | [(_ & _ & E) | (_ & _ & E)]]; rewrite E in H; try discriminate.
  assert (Hm : m' = run (subscribe_body g r f cb cx) (store_port (pin_number_of g) (port_ g) m))
    by congruence.
  subst m'. rewrite run_body. unfold run. cbn. destruct r, f; split; reflexivity.
Qed.

(** C8, for pins whose mask is the bit of their line: [subscribe] finds
    the line with [get_pin_number()] but writes the trigger registers with
    [pin_mask_].  After a successful [subscribe] through a pin whose mask
    is the single bit of its line, the line's bit of the rising trigger
    register is set exactly when [rising_edge] is true and its bit of the
    falling trigger register exactly when [falling_edge] is true, each
    flag on its own; the trigger bits of every other line are as before. *)
Theorem subscribe_programs_edge_triggers g r f cb cx m m' :
  pin_mask_ g = Z.shiftl 1 (pin_number_of g) ->
  subscribe g r f cb cx m = (true, m') ->
  Z.testbit (RTSR m') (pin_number_of g) = r /\
  Z.testbit (FTSR m') (pin_number_of g) = f /\
  (forall k, 0 <= k < 32 -> k <> pin_number_of g ->
     Z.testbit (RTSR m') k = Z.testbit (RTSR m) k /\
     Z.testbit (FTSR m') k = Z.testbit (FTSR m) k).
Proof.
  intros Hmask H.
  assert (Hn : pin_number_of g < N_EXTI).
  { destruct (subscribe_cases g r f cb cx m)
      as [[_ E] | [(_ & _ & E) | (Hn & _ & _)]];
      [rewrite E in H; discriminate | rewrite E in H; discriminate | exact Hn]. }
  pose proof (pin_nonneg g) as Hp. unfold N_EXTI in Hn.
  destruct (subscribe_triggers g r f cb cx m m' H) as [-> ->].
  rewrite Hmask.
  assert (B : forall k, 0 <= k < 32 ->
              Z.testbit (u32 (Z.shiftl 1 (pin_number_of g))) k = (k =? pin_number_of g)).
  { intros k Hk. rewrite testbit_u32, testbit_one_hot by lia.
    replace (k <? 32) with true by (symmetry; apply Z.ltb_lt; lia).
    reflexivity. }
  assert (N : forall k, 0 <= k < 32 ->
              Z.testbit (not32 (u32 (Z.shiftl 1 (pin_number_of g)))) k = negb (k =? pin_number_of g)).
  { intros k Hk. rewrite testbit_not32, B by lia.
    replace (k <? 32) with true by (symmetry; apply Z.ltb_lt; lia).
    reflexivity. }
  split; [| split].
  - destruct r; [rewrite Z.lor_spec | rewrite Z.land_spec];
      rewrite ?B, ?N, Z.eqb_refl by lia; simpl;
      [apply orb_true_r | apply andb_false_r].
  - destruct f; [rewrite Z.lor_spec | rewrite Z.land_spec];
      rewrite ?B, ?N, Z.eqb_refl by lia; simpl;
      [apply orb_true_r | apply andb_false_r].
  - intros k Hk Hne.
    assert (Ek : (k =? pin_number_of g) = false) by (apply Z.eqb_neq; exact Hne).
    split.
    + destruct r; [rewrite Z.lor_spec | rewrite Z.land_spec];
        rewrite ?B, ?N, Ek by lia; simpl;
        [apply orb_false_r | apply andb_true_r].
    + destruct f; [rewrite Z.lor_spec | rewrite Z.land_spec];
        rewrite ?B, ?N, Ek by lia; simpl;
        [apply orb_false_r | apply andb_true_r].
Qed.

End Subscription.

(** C6: when the dispatcher is called for line [n] and the pending flag of
    line [n] is not set, it returns the state it was given: no callback is
    logged, no flag is cleared, nothing is modified. *)
Theorem maybe_handle_without_pending_flag n m :
  Z.testbit (PR m) n = false -> maybe_handle n m = m.
Proof.
  intros H. unfold maybe_handle.
  rewrite GET_IT_one_hot, H. reflexivity.
Qed.

(** ** Ownership of a line over time *)

Section Ownership.

Context {hdr : Header}.

Lemma subscribe_refused_while_owned g r f cb cx m p :
  p <> nullptr -> port (subscription_at (pin_number_of g) m) = p ->
  subscribe g r f cb cx m = (false, m).
Proof.
  intros Hp Hown.
  destruct (subscribe_cases g r f cb cx m)
    as [[_ E] | [(_ & _ & E) | (_ & Hfree & _)]]; [exact E | exact E |].
  congruence.
Qed.

Lemma exec_keeps_owner n p o m :
  0 <= n -> p <> nullptr ->
  port (subscription_at n m) = p ->
  releases n p o = false ->
  port (subscription_at n (exec o m)) = p.
Proof.
  intros Hn Hp Hown Hrel. destruct o as [g r f cb cx | g | e]; simpl.
  - destruct (Z.eq_dec (pin_number_of g) n) as [E | E].
    + subst n. rewrite (subscribe_refused_while_owned g r f cb cx m p Hp Hown).
      exact Hown.
    + rewrite subscribe_other_slot by auto. exact Hown.
  - destruct (Z.eq_dec (pin_number_of g) n) as [E | E].
    + subst n. simpl in Hrel. rewrite Z.eqb_refl in Hrel. simpl in Hrel.
      apply Z.eqb_neq in Hrel.
      destruct (unsubscribe_cases g m) as [[_ ->] | (_ & Hg & _)];
        [exact Hown | congruence].
    + rewrite unsubscribe_other_slot by auto. exact Hown.
  - unfold subscription_at. rewrite fire_subscriptions. exact Hown.
Qed.

Lemma exec_all_keeps_owner n p os m :
  0 <= n -> p <> nullptr ->
  port (subscription_at n m) = p ->
  forallb (fun o => negb (releases n p o)) os = true ->
  port (subscription_at n (exec_all os m)) = p.
Proof.
  intros Hn Hp. unfold exec_all. revert m.
  induction os as [| o os IH]; intros m Hown Hall; simpl; [exact Hown |].
  simpl in Hall. apply andb_true_iff in Hall as [Ho Hos].
  apply negb_true_iff in Ho.
  apply IH; [| exact Hos]. apply exec_keeps_owner; assumption.
Qed.

(** C1, for pins that have a port: on a 16-slot table, once [subscribe]
    has succeeded through a pin whose port is not null, then for as long as no
    [unsubscribe] for that line is made through that port, whatever other
    calls and events happen, the slot's owner stays that port and every
    [subscribe] whose pin maps to the same line returns false and changes
    nothing. *)
Theorem one_subscription_per_line g r f cb cx m0 m1 os :
  length (subscriptions m0) = Z.to_nat N_EXTI ->
  port_ g <> nullptr ->
  subscribe g r f cb cx m0 = (true, m1) ->
  forallb (fun o => negb (releases (pin_number_of g) (port_ g) o)) os = true ->
  port (subscription_at (pin_number_of g) (exec_all os m1)) = port_ g /\
  (forall g' r' f' cb' cx',
     pin_number_of g' = pin_number_of g ->
     subscribe g' r' f' cb' cx' (exec_all os m1) = (false, exec_all os m1)).
Proof.
  intros Hlen Hp Hsub Hos.
  assert (Hn : pin_number_of g < N_EXTI).
  { destruct (subscribe_cases g r f cb cx m0)
      as [[_ E] | [(_ & _ & E) | (Hn & _ & _)]];
      [rewrite E in Hsub; discriminate | rewrite E in Hsub; discriminate | exact Hn]. }
  pose proof (pin_nonneg g) as Hnn.
  assert (Hslot : subscription_at (pin_number_of g) m1 = mk_subscription (port_ g) cb cx).
  { apply (subscribe_slot g r f cb cx m0 m1);
      [| exact Hsub]. rewrite Hlen. unfold N_EXTI in *. lia. }
  assert (Hown : port (subscription_at (pin_number_of g) (exec_all os m1)) = port_ g).
  { apply exec_all_keeps_owner; auto. rewrite Hslot. reflexivity. }
  split; [exact Hown |].
  intros g' r' f' cb' cx' Hsame.
  apply (subscribe_refused_while_owned g' r' f' cb' cx' _ (port_ g) Hp).
  rewrite Hsame. exact Hown.
Qed.

Lemma exec_keeps_quiet n o m :
  0 <= n ->
  callback (subscription_at n m) = nullptr ->
  subscribes_on n o = false ->
  callback (subscription_at n (exec o m)) = nullptr /\
  exists new, calls (exec o m) = new ++ calls m /\
              Forall (fun c => call_line c <> n) new.
Proof.
  intros Hn Hq Hs. destruct o as [g r f cb cx | g | e]; simpl.
  - simpl in Hs. apply Z.eqb_neq in Hs. split.
    + rewrite subscribe_other_slot by auto. exact Hq.
    + exists []. split; [apply subscribe_calls | constructor].
  - split; [apply unsubscribe_keeps_quiet, Hq |].
    exists []. split; [apply unsubscribe_calls | constructor].
  - split; [unfold subscription_at; rewrite fire_subscriptions; exact Hq |].
    destruct (fire_log e m) as (new & Hc & Hf). exists new. split; [exact Hc |].
    eapply Forall_impl; [exact Hf |]. intros c. apply from_slot_off_line, Hq.
Qed.

Lemma exec_all_keeps_quiet n os m :
  0 <= n ->
  callback (subscription_at n m) = nullptr ->
  forallb (fun o => negb (subscribes_on n o)) os = true ->
  callback (subscription_at n (exec_all os m)) = nullptr /\
  exists new, calls (exec_all os m) = new ++ calls m /\
              Forall (fun c => call_line c <> n) new.
Proof.
  intros Hn. unfold exec_all. revert m.
  induction os as [| o os IH]; intros m Hq Hall; simpl.
  - split; [exact Hq |]. exists []. split; [reflexivity | constructor].
  - simpl in Hall. apply andb_true_iff in Hall as [Ho Hos].
    apply negb_true_iff in Ho.
    destruct (exec_keeps_quiet n o m Hn Hq Ho) as (Hq1 & new1 & Hc1 & Hf1).
    destruct (IH _ Hq1 Hos) as (Hq2 & new2 & Hc2 & Hf2).
    split; [exact Hq2 |]. exists (new2 ++ new1). split.
    + rewrite Hc2, Hc1. apply app_assoc.
    + apply Forall_app. split; assumption.
Qed.

(** What [unsubscribe] leaves in the slot when it follows the caller's own
    successful [subscribe]. *)
Lemma unsubscribe_after_subscribe g r f cb cx m0 m1 es :
  subscribe g r f cb cx m0 = (true, m1) ->
  callback (subscription_at (pin_number_of g) (unsubscribe g (fire_all es m1))) = nullptr.
Proof.
  intros Hsub.
  destruct (Nat.lt_ge_cases (Z.to_nat (pin_number_of g)) (length (subscriptions m0)))
    as [Hin | Hout].
  - pose proof (subscribe_slot g r f cb cx m0 m1
                  Hin Hsub) as Hslot.
    assert (Hlen1 : length (subscriptions m1) = length (subscriptions m0)).
    { pose proof (subscribe_length g r f cb cx m0) as L.
      rewrite Hsub in L. exact L. }
    assert (Hs : subscription_at (pin_number_of g) (fire_all es m1) =
                 mk_subscription (port_ g) cb cx).
    { unfold subscription_at. rewrite fire_all_subscriptions. exact Hslot. }
    destruct (unsubscribe_cases g (fire_all es m1))
      as [[[Hbad | Hbad] _] | (_ & _ & ->)].
    + destruct (subscribe_cases g r f cb cx m0)
        as [[_ E] | [(_ & _ & E) | (Hn & _ & _)]];
        [rewrite E in Hsub; discriminate | rewrite E in Hsub; discriminate | lia].
    + rewrite Hs in Hbad. simpl in Hbad. congruence.
    + rewrite run_unsubscribe_body. unfold subscription_at. cbn [subscriptions].
      rewrite list_lookup_total_insert_eq; [reflexivity |].
      rewrite fire_all_subscriptions, Hlen1. exact Hin.
  - apply unsubscribe_keeps_quiet.
    rewrite subscription_at_out_of_range; [reflexivity |].
    rewrite fire_all_subscriptions.
    pose proof (subscribe_length g r f cb cx m0) as L.
    rewrite Hsub in L. simpl in L. rewrite L. exact Hout.
Qed.

(** C3: after [subscribe] has bound a callback through a pin and
    [unsubscribe] has returned for that pin, the slot's callback is null
    and, however many events are delivered and whatever other calls are
    made afterwards, the dispatcher makes no call for that pin's line,
    until [subscribe] is called for that line again. *)
Theorem unsubscribe_stops_dispatch g r f cb cx m0 m1 es os :
  subscribe g r f cb cx m0 = (true, m1) ->
  forallb (fun o => negb (subscribes_on (pin_number_of g) o)) os = true ->
  callback (subscription_at (pin_number_of g) (unsubscribe g (fire_all es m1))) = nullptr /\
  exists new,
    calls (exec_all os (unsubscribe g (fire_all es m1))) =
      new ++ calls (unsubscribe g (fire_all es m1)) /\
    Forall (fun c => call_line c <> pin_number_of g) new.
Proof.
  intros Hsub Hos.
  pose proof (unsubscribe_after_subscribe g r f cb cx m0 m1 es Hsub) as Hq.
  split; [exact Hq |].
  apply exec_all_keeps_quiet; [apply pin_nonneg | exact Hq | exact Hos].
Qed.

(** Free slots have no callback in every state reached from start-up through
    handles that have a port. *)
Lemma exec_keeps_free_slots_clean o m :
  bound_handle o = true ->
  free_slots_clean m -> free_slots_clean (exec o m).
Proof.
  intros Hb Hinv k Hk. destruct o as [g r f cb cx | g | e]; simpl.
  - simpl in Hb. apply negb_true_iff, Z.eqb_neq in Hb.
    destruct (Z.eq_dec k (pin_number_of g)) as [-> | Hne];
      [| rewrite subscribe_other_slot by auto; apply Hinv, Hk].
    destruct (subscribe_cases g r f cb cx m)
      as [[_ E] | [(_ & _ & E) | (_ & _ & E)]];
      [rewrite E; apply Hinv, Hk | rewrite E; apply Hinv, Hk |].
    destruct (Nat.lt_ge_cases (Z.to_nat (pin_number_of g)) (length (subscriptions m)))
      as [Hin | Hout].
    + pose proof (subscribe_slot g r f cb cx m _ Hin E)
        as Hslot.
      rewrite E. cbn [snd]. rewrite Hslot. simpl. intros Hnull. contradiction.
    + intros _. rewrite subscription_at_out_of_range; [reflexivity |].
      rewrite subscribe_length. exact Hout.
  - destruct (unsubscribe_cases g m) as [[_ ->] | (_ & _ & ->)];
      [apply Hinv, Hk |].
    rewrite run_unsubscribe_body. unfold subscription_at. cbn [subscriptions].
    rewrite list_lookup_total_insert.
    case_decide; [reflexivity | apply Hinv, Hk].
  - unfold subscription_at. rewrite fire_subscriptions. apply Hinv, Hk.
Qed.

Lemma startup_free_slots_clean : free_slots_clean startup.
Proof.
  intros k Hk _. unfold subscription_at, startup. cbn [subscriptions].
  rewrite list_lookup_total_alt.
  destruct (replicate (Z.to_nat N_EXTI) no_subscription !! Z.to_nat k) as [s |] eqn:E;
    [| reflexivity].
  apply lookup_replicate_1 in E as [-> _]. reflexivity.
Qed.

Lemma reachable_free_slots_clean os m :
  forallb (bound_handle) os = true ->
  free_slots_clean m -> free_slots_clean (exec_all os m).
Proof.
  unfold exec_all. revert m.
  induction os as [| o os IH]; intros m Hall Hinv; simpl; [exact Hinv |].
  simpl in Hall. apply andb_true_iff in Hall as [Ho Hos].
  apply IH; [exact Hos |]. apply exec_keeps_free_slots_clean; assumption.
Qed.

End Ownership.

(** ** Shared entry points *)

Lemma callbacks_due_same ls m m' :
  subscriptions m' = subscriptions m ->
  (forall n, In n ls -> Z.testbit (PR m') n = Z.testbit (PR m) n) ->
  callbacks_due ls m' = callbacks_due ls m.
Proof.
  intros Hs Hp. unfold callbacks_due.
  induction ls as [| a ls IH]; simpl; [reflexivity |].
  rewrite IH by (intros n Hn; apply Hp; right; exact Hn).
  unfold subscription_at. rewrite Hs, Hp by (left; reflexivity). reflexivity.
Qed.

Lemma polls_calls ls m :
  List.NoDup ls -> Forall (fun n => 0 <= n < N_EXTI) ls ->
  calls (fold_left (fun s n => maybe_handle n s) ls m) =
  rev (callbacks_due ls m) ++ calls m.
Proof.
  intros Hnd Hr. revert m.
  induction ls as [| a ls IH]; intros m; simpl; [reflexivity |].
  apply NoDup_cons_iff in Hnd as [Ha Hnd].
  apply Forall_cons_iff in Hr as [Hra Hr].
  rewrite (IH Hnd Hr), maybe_handle_calls by lia.
  rewrite (callbacks_due_same ls m (maybe_handle a m)).
  - unfold callbacks_due. simpl. rewrite rev_app_distr, app_nil_r, <- app_assoc.
    f_equal. f_equal.
    destruct (Z.testbit (PR m) a && negb (callback (subscription_at a m) =? nullptr));
      reflexivity.
  - apply maybe_handle_subscriptions.
  - intros n Hn.
    assert (0 <= n < N_EXTI) as Hrn by (rewrite List.Forall_forall in Hr; apply Hr, Hn).
    unfold N_EXTI in Hrn.
    rewrite maybe_handle_pending by lia.
    replace (n =? a) with false; [apply andb_true_r |].
    symmetry. apply Z.eqb_neq. intros ->. contradiction.
Qed.

Lemma polls_pending ls m k :
  0 <= k < 32 ->
  Z.testbit (PR (fold_left (fun s n => maybe_handle n s) ls m)) k =
  Z.testbit (PR m) k && negb (existsb (Z.eqb k) ls).
Proof.
  intros Hk. revert m.
  induction ls as [| a ls IH]; intros m; simpl; [symmetry; apply andb_true_r |].
  rewrite IH, maybe_handle_pending by exact Hk.
  rewrite negb_orb, andb_assoc. reflexivity.
Qed.

Lemma polls_idle ls m :
  (forall j, In j ls -> Z.testbit (PR m) j = false) ->
  fold_left (fun s n => maybe_handle n s) ls m = m.
Proof.
  induction ls as [| a ls IH]; intros H; simpl; [reflexivity |].
  rewrite maybe_handle_not_pending by (apply H; left; reflexivity).
  apply IH. intros j Hj. apply H. right. exact Hj.
Qed.

Lemma polls_single ls k m :
  In k ls -> Forall (fun n => 0 <= n < 32) ls ->
  (forall j, In j ls -> j <> k -> Z.testbit (PR m) j = false) ->
  fold_left (fun s n => maybe_handle n s) ls m = maybe_handle k m.
Proof.
  induction ls as [| a ls IH]; intros Hin Hr H; simpl; [destruct Hin |].
  apply Forall_cons_iff in Hr as [Hra Hr].
  destruct (Z.eq_dec a k) as [-> | Hne].
  - apply polls_idle. intros j Hj.
    assert (0 <= j < 32) as Hrj by (rewrite List.Forall_forall in Hr; apply Hr, Hj).
    rewrite maybe_handle_pending by exact Hrj.
    destruct (Z.eqb_spec j k) as [-> | Hjk]; [apply andb_false_r |].
    rewrite (H j) by (auto; right; exact Hj). reflexivity.
  - rewrite maybe_handle_not_pending by (apply H; [left; reflexivity | exact Hne]).
    destruct Hin as [E | Hin]; [contradiction |].
    apply IH; [exact Hin | exact Hr |].
    intros j Hj. apply H. right. exact Hj.
Qed.

(** Polling the lines [ls] one after the other. *)
Lemma group_polled ls m :
  List.NoDup ls -> Forall (fun n => 0 <= n < N_EXTI) ls ->
  let m' := fold_left (fun s n => maybe_handle n s) ls m in
  calls m' = rev (callbacks_due ls m) ++ calls m /\
  (forall k, In k ls -> Z.testbit (PR m') k = false) /\
  (forall k, 0 <= k < 32 -> ~ In k ls -> Z.testbit (PR m') k = Z.testbit (PR m) k) /\
  (forall k, In k ls ->
     (forall j, In j ls -> j <> k -> Z.testbit (PR m) j = false) ->
     m' = maybe_handle k m /\ calls m' = callbacks_due [k] m ++ calls m).
Proof.
  intros Hnd Hr m'. subst m'.
  assert (Hr32 : Forall (fun n => 0 <= n < 32) ls).
  { eapply Forall_impl; [exact Hr |]. unfold N_EXTI. intros n Hn. simpl in Hn. lia. }
  split; [apply polls_calls; assumption |]. split; [| split].
  - intros k Hk. rewrite polls_pending by (rewrite List.Forall_forall in Hr32; apply Hr32, Hk).
    replace (existsb (Z.eqb k) ls) with true; [apply andb_false_r |].
    symmetry. apply existsb_exists. exists k. split; [exact Hk | apply Z.eqb_refl].
  - intros k Hk Hout. rewrite polls_pending by exact Hk.
    replace (existsb (Z.eqb k) ls) with false; [apply andb_true_r |].
    symmetry. apply not_true_is_false. intros Hex.
    apply existsb_exists in Hex as (j & Hj & E). apply Z.eqb_eq in E. subst j.
    contradiction.
  - intros k Hk Hothers.
    assert (E : fold_left (fun s n => maybe_handle n s) ls m = maybe_handle k m)
      by (apply polls_single; assumption).
    split; [exact E |]. rewrite E. apply maybe_handle_calls.
    rewrite List.Forall_forall in Hr. apply Hr, Hk.
Qed.

(** C7: each shared entry point polls every line of its group once, in
    order (5 to 9, and 10 to 15): it logs the callbacks that are due on
    those lines, one per pending line with a callback, and leaves each of
    the group's pending flags clear and every other flag as it was.  When no
    line of the group other than [k] has its pending flag set, the entry
    point does exactly what the single poll of line [k] does, so the only
    callback that can be called is the one bound to line [k]. *)
Theorem shared_entry_points_poll_their_group m :
  (calls (EXTI9_5_IRQHandler m) = rev (callbacks_due [5; 6; 7; 8; 9] m) ++ calls m /\
   (forall k, In k [5; 6; 7; 8; 9] -> Z.testbit (PR (EXTI9_5_IRQHandler m)) k = false) /\
   (forall k, 0 <= k < 32 -> ~ In k [5; 6; 7; 8; 9] ->
      Z.testbit (PR (EXTI9_5_IRQHandler m)) k = Z.testbit (PR m) k) /\
   (forall k, In k [5; 6; 7; 8; 9] ->
      (forall j, In j [5; 6; 7; 8; 9] -> j <> k -> Z.testbit (PR m) j = false) ->
      EXTI9_5_IRQHandler m = maybe_handle k m /\
      calls (EXTI9_5_IRQHandler m) = callbacks_due [k] m ++ calls m)) /\
  (calls (EXTI15_10_IRQHandler m) =
     rev (callbacks_due [10; 11; 12; 13; 14; 15] m) ++ calls m /\
   (forall k, In k [10; 11; 12; 13; 14; 15] ->
      Z.testbit (PR (EXTI15_10_IRQHandler m)) k = false) /\
   (forall k, 0 <= k < 32 -> ~ In k [10; 11; 12; 13; 14; 15] ->
      Z.testbit (PR (EXTI15_10_IRQHandler m)) k = Z.testbit (PR m) k) /\
   (forall k, In k [10; 11; 12; 13; 14; 15] ->
      (forall j, In j [10; 11; 12; 13; 14; 15] -> j <> k -> Z.testbit (PR m) j = false) ->
      EXTI15_10_IRQHandler m = maybe_handle k m /\
      calls (EXTI15_10_IRQHandler m) = callbacks_due [k] m ++ calls m)).
Proof.
  split.
  - apply (group_polled [5; 6; 7; 8; 9] m).
    + repeat (apply List.NoDup_cons; [simpl; lia |]). apply List.NoDup_nil.
    + repeat constructor; unfold N_EXTI; lia.
  - apply (group_polled [10; 11; 12; 13; 14; 15] m).
    + repeat (apply List.NoDup_cons; [simpl; lia |]). apply List.NoDup_nil.
    + repeat constructor; unfold N_EXTI; lia.
Qed.

(** ** Preemption of [subscribe] by the dispatcher *)

Lemma run_preempted_app b1 b2 sched m :
  run_preempted (b1 ++ b2) sched m =
  run_preempted b2 (drop (length b1) sched) (run_preempted b1 sched m).
Proof.
  revert sched m. induction b1 as [| s b1 IH]; intros sched m; simpl;
    [reflexivity |].
  destruct sched as [| es sched]; simpl; rewrite IH; [| reflexivity].
  rewrite drop_nil. reflexivity.
Qed.

Lemma fire_all_quiet n es m :
  callback (subscription_at n m) = nullptr ->
  callback (subscription_at n (fire_all es m)) = nullptr /\
  exists new, calls (fire_all es m) = new ++ calls m /\
              Forall (fun c => call_line c <> n) new.
Proof.
  intros Hq. split.
  - unfold subscription_at. rewrite fire_all_subscriptions. exact Hq.
  - destruct (fire_all_log es m) as (new & Hc & Hf). exists new.
    split; [exact Hc |]. eapply Forall_impl; [exact Hf |].
    intros c. apply from_slot_off_line, Hq.
Qed.

(** While the statements of a block leave the callback of slot [n] null,
    no interrupt that preempts the block makes a call for line [n]. *)
Lemma run_preempted_quiet n b sched m :
  (forall s, In s b -> forall x,
     callback (subscription_at n (s x)) = callback (subscription_at n x) /\
     calls (s x) = calls x) ->
  callback (subscription_at n m) = nullptr ->
  callback (subscription_at n (run_preempted b sched m)) = nullptr /\
  exists new, calls (run_preempted b sched m) = new ++ calls m /\
              Forall (fun c => call_line c <> n) new.
Proof.
  revert sched m. induction b as [| s b IH]; intros sched m Hb Hq; simpl.
  - split; [exact Hq |]. exists []. split; [reflexivity | constructor].
  - assert (Hs : forall x, callback (subscription_at n (s x)) =
                           callback (subscription_at n x) /\ calls (s x) = calls x)
      by (apply Hb; left; reflexivity).
    assert (Hb' : forall s', In s' b -> forall x,
               callback (subscription_at n (s' x)) = callback (subscription_at n x) /\
               calls (s' x) = calls x)
      by (intros s' Hin; apply Hb; right; exact Hin).
    destruct sched as [| es sched].
    + destruct (Hs m) as [Hs1 Hs2].
      destruct (IH [] (s m) Hb') as (Hq' & new & Hc & Hf); [congruence |].
      split; [exact Hq' |]. exists new. split; [congruence | exact Hf].
    + destruct (fire_all_quiet n es m Hq) as (Hq0 & new0 & Hc0 & Hf0).
      destruct (Hs (fire_all es m)) as [Hs1 Hs2].
      destruct (IH sched (s (fire_all es m)) Hb') as (Hq' & new & Hc & Hf);
        [congruence |].
      split; [exact Hq' |]. exists (new ++ new0). split.
      * rewrite Hc, Hs2, Hc0. apply app_assoc.
      * apply Forall_app. split; assumption.
Qed.



Section Window.

Context {hdr : Header}.






End Window.

(** ** The driver on the concrete board *)

(** C2: [unsubscribe] does not mask the line.  After pin 5 of port A has
    subscribed, the slot of line 5 is owned by port A; after its
    [unsubscribe] the pending flag of line 5 is clear, but bit 5 of the
    interrupt mask register is still set, and it is set even when it was
    clear before the call: the statement is [EXTI->IMR |= pin_mask_]. *)
Theorem unsubscribe_leaves_line_unmasked :
  port (subscription_at 5
          (snd (subscribe Board.PA5 true false Board.on_edge Board.axis0 startup))) =
    port_ Board.PA5 /\
  Z.testbit (PR (unsubscribe Board.PA5
      (fire (latch 0x20)
         (snd (subscribe Board.PA5 true false Board.on_edge Board.axis0 startup))))) 5
    = false /\
  Z.testbit (IMR (unsubscribe Board.PA5
      (snd (subscribe Board.PA5 true false Board.on_edge Board.axis0 startup)))) 5
    = true /\
  Z.testbit (IMR (unsubscribe Board.PA5
      (set_IMR 0
         (snd (subscribe Board.PA5 true false Board.on_edge Board.axis0 startup))))) 5
    = true.
Proof. vm_compute. repeat split; reflexivity. Qed.

(** C1, as stated, fails: [subscribe] through a handle whose port is null
    succeeds on a free line and leaves the slot without an owner, so a
    second [subscribe] for the same line, here from port B, succeeds too
    and takes the slot over.  The same happens with [Stm32Gpio::none] and
    pin 0 of port A. *)
Lemma unbound_handle_does_not_hold_its_line :
  (fst (subscribe Board.unbound3 true false Board.on_edge Board.axis0 startup) = true /\
   port (subscription_at 3
           (snd (subscribe Board.unbound3 true false Board.on_edge Board.axis0 startup))) =
     nullptr /\
   pin_number_of Board.PB3 =
     pin_number_of Board.unbound3 /\
   fst (subscribe Board.PB3 true true Board.on_index Board.axis1
          (snd (subscribe Board.unbound3 true false Board.on_edge Board.axis0 startup)))
     = true /\
   port (subscription_at 3
           (snd (subscribe Board.PB3 true true Board.on_index Board.axis1
              (snd (subscribe Board.unbound3 true false Board.on_edge Board.axis0
                      startup))))) = Board.GPIOB) /\
  (fst (subscribe none true false Board.on_edge Board.axis0 startup) = true /\
   pin_number_of Board.PA0 =
     pin_number_of none /\
   fst (subscribe Board.PA0 true true Board.on_index Board.axis1
          (snd (subscribe none true false Board.on_edge Board.axis0 startup)))
     = true).
Proof. vm_compute. repeat split; reflexivity. Qed.

(** C8, as stated, fails: the trigger registers are written with the
    pin's mask, not with the bit of the line.  [subscribe] through
    [Stm32Gpio::none], whose mask is 0, succeeds on line 0 with both edges
    asked for and sets neither trigger bit of line 0.  Through a handle of
    port A whose mask has bits 4 and 5, [subscribe] succeeds on line 5 and
    sets the rising trigger bit of line 4 as well. *)
Lemma trigger_bits_follow_mask_not_line :
  (fst (subscribe none true true Board.on_edge Board.axis0 startup) = true /\
   pin_number_of none = 0 /\
   Z.testbit (RTSR (snd (subscribe none true true Board.on_edge Board.axis0 startup))) 0 =
     false /\
   Z.testbit (FTSR (snd (subscribe none true true Board.on_edge Board.axis0 startup))) 0 =
     false) /\
  (fst (subscribe (mk_gpio Board.GPIOA 0x30) true false Board.on_edge Board.axis0 startup) =
     true /\
   pin_number_of (mk_gpio Board.GPIOA 0x30) = 5 /\
   Z.testbit (RTSR startup) 4 = false /\
   Z.testbit (RTSR (snd (subscribe (mk_gpio Board.GPIOA 0x30) true false Board.on_edge
                           Board.axis0 startup))) 4 = true).
Proof. vm_compute. repeat split; reflexivity. Qed.


(** ** The theorems at concrete inputs *)

(** A mask beyond bit 15 gives line 16, which [subscribe] rejects. *)
Lemma subscribe_invalid_line_rejected_witness :
  N_EXTI <= pin_number_of (mk_gpio Board.GPIOA 0x10000) /\
  subscribe (mk_gpio Board.GPIOA 0x10000) true false Board.on_edge Board.axis0 startup =
    (false, startup).
Proof.
  split; [vm_compute; discriminate |].
  apply (subscribe_invalid_line_rejected).
  vm_compute. discriminate.
Defined.

(** Port B asks for line 3 while port A holds it. *)
Lemma subscribe_busy_is_atomic_witness :
  fst (atomic_compare_exchange_port (pin_number_of Board.PB3) nullptr (port_ Board.PB3)
         (snd (subscribe Board.PA3 true false Board.on_edge Board.axis0 startup))) = false /\
  subscribe Board.PB3 true true Board.on_index Board.axis1
    (snd (subscribe Board.PA3 true false Board.on_edge Board.axis0 startup)) =
  (false, snd (subscribe Board.PA3 true false Board.on_edge Board.axis0 startup)).
Proof.
  apply (subscribe_busy_is_atomic Board.PB3
           true true Board.on_index Board.axis1
           (snd (subscribe Board.PA3 true false Board.on_edge Board.axis0 startup))).
  - vm_compute. reflexivity.
  - vm_compute. discriminate.
Defined.

(** [unsubscribe] on a pin that never subscribed, and on a pin of another
    port than the owner. *)
Lemma unsubscribe_total_idempotent_witness :
  unsubscribe Board.PA5 startup = startup /\
  unsubscribe Board.PB3
    (snd (subscribe Board.PA3 true false Board.on_edge Board.axis0 startup)) =
  snd (subscribe Board.PA3 true false Board.on_edge Board.axis0 startup).
Proof.
  split.
  - apply (proj1 (unsubscribe_total_idempotent Board.PA5 startup)).
    right. vm_compute. discriminate.
  - apply (proj1 (unsubscribe_total_idempotent Board.PB3
             (snd (subscribe Board.PA3 true false Board.on_edge Board.axis0 startup)))).
    right. vm_compute. discriminate.
Defined.

(** Rising edge only, on pin 5 of port A. *)
Lemma subscribe_programs_edge_triggers_witness :
  pin_mask_ Board.PA5 = Z.shiftl 1 (pin_number_of Board.PA5) /\
  Z.testbit (RTSR (snd (subscribe Board.PA5 true false Board.on_edge Board.axis0
                          startup))) 5 = true /\
  Z.testbit (FTSR (snd (subscribe Board.PA5 true false Board.on_edge Board.axis0
                          startup))) 5 = false.
Proof.
  split; [vm_compute; reflexivity |].
  assert (Hmask : pin_mask_ Board.PA5 =
                  Z.shiftl 1 (pin_number_of Board.PA5))
    by (vm_compute; reflexivity).
  assert (Hsub : subscribe Board.PA5 true false
                   Board.on_edge Board.axis0 startup =
                 (true, snd (subscribe Board.PA5 true false Board.on_edge Board.axis0
                               startup)))
    by (vm_compute; reflexivity).
  destruct (subscribe_programs_edge_triggers
              Board.PA5 true false Board.on_edge Board.axis0 startup _ Hmask Hsub)
    as (Hr & Hf & _).
  split; [exact Hr | exact Hf].
Defined.

(** A poll of line 7 when nothing is pending. *)
Lemma maybe_handle_without_pending_flag_witness :
  Z.testbit (PR startup) 7 = false /\ maybe_handle 7 startup = startup.
Proof.
  split; [reflexivity |].
  apply maybe_handle_without_pending_flag. reflexivity.
Defined.

(** Port A holds line 3 while port B tries to subscribe and to unsubscribe
    and an edge is dispatched. *)
Lemma one_subscription_per_line_witness :
  port (subscription_at 3
    (exec_all
       [op_subscribe Board.PB3 true true Board.on_index Board.axis1;
        op_event (latch 0x08); op_event (irq EXTI3);
        op_unsubscribe Board.PB3]
       (snd (subscribe Board.PA3 true false Board.on_edge Board.axis0 startup)))) =
  Board.GPIOA.
Proof.
  refine (proj1 (one_subscription_per_line
                   Board.PA3 true false Board.on_edge Board.axis0 startup
                   (snd (subscribe Board.PA3 true false Board.on_edge Board.axis0
                           startup))
                   [op_subscribe Board.PB3 true true Board.on_index Board.axis1;
                    op_event (latch 0x08); op_event (irq EXTI3);
                    op_unsubscribe Board.PB3] _ _ _ _)).
  - reflexivity.
  - vm_compute. discriminate.
  - vm_compute. reflexivity.
  - vm_compute. reflexivity.
Defined.

(** Pin 5 of port A subscribes, an edge is dispatched, the pin
    unsubscribes, and two more edges arrive. *)
Lemma unsubscribe_stops_dispatch_witness :
  exists new,
    calls (exec_all
             [op_event (latch 0x20); op_event (irq EXTI9_5);
              op_event (latch 0x20); op_event (irq EXTI9_5)]
             (unsubscribe Board.PA5
                (fire_all [latch 0x20; irq EXTI9_5]
                   (snd (subscribe Board.PA5 true false Board.on_edge Board.axis0
                           startup))))) =
    new ++ calls (unsubscribe Board.PA5
                    (fire_all [latch 0x20; irq EXTI9_5]
                       (snd (subscribe Board.PA5 true false Board.on_edge Board.axis0
                               startup)))) /\
    Forall (fun c => call_line c <> 5) new.
Proof.
  refine (proj2 (unsubscribe_stops_dispatch
                   Board.PA5 true false Board.on_edge Board.axis0 startup
                   (snd (subscribe Board.PA5 true false Board.on_edge Board.axis0
                           startup))
                   [latch 0x20; irq EXTI9_5]
                   [op_event (latch 0x20); op_event (irq EXTI9_5);
                    op_event (latch 0x20); op_event (irq EXTI9_5)] _ _)).
  - vm_compute. reflexivity.
  - vm_compute. reflexivity.
Defined.

(** Lines 5 and 7 are subscribed and only line 7 is pending. *)
Lemma shared_entry_points_poll_their_group_witness :
  EXTI9_5_IRQHandler
    (fire (latch 0x80)
       (snd (subscribe Board.PC7 true true Board.on_index Board.axis1
               (snd (subscribe Board.PA5 true false Board.on_edge Board.axis0
                       startup))))) =
  maybe_handle 7
    (fire (latch 0x80)
       (snd (subscribe Board.PC7 true true Board.on_index Board.axis1
               (snd (subscribe Board.PA5 true false Board.on_edge Board.axis0
                       startup))))).
Proof.
  refine (proj1 (proj2 (proj2 (proj2 (proj1
            (shared_entry_points_poll_their_group _)))) 7 _ _)).
  - simpl. auto.
  - intros j Hj Hne. simpl in Hj.
    destruct Hj as [<- | [<- | [<- | [<- | [<- | []]]]]];
      try reflexivity. contradiction.
Defined.


(** ** Read-modify-write of a bit field *)

Lemma testbit_rmw x mask v s i :
  0 <= i < 32 ->
  Z.testbit (Z.lor (Z.land x (not32 (u32 (Z.shiftl mask s)))) (u32 (Z.shiftl v s))) i =
  Z.testbit x i && negb (Z.testbit mask (i - s)) || Z.testbit v (i - s).
Proof.
  intros Hi.
  rewrite Z.lor_spec, Z.land_spec, testbit_not32, !testbit_u32, !Z.shiftl_spec by lia.
  replace (i <? 32) with true by (symmetry; apply Z.ltb_lt; lia).
  reflexivity.
Qed.

Lemma testbit_field s w x j :
  0 <= j -> 0 <= w -> Z.testbit (field s w x) j = (j <? w) && Z.testbit x (j + s).
Proof.
  intros Hj Hw. unfold field.
  rewrite Z.land_spec, Z.shiftr_spec, Z.testbit_ones_nonneg by lia.
  apply andb_comm.
Qed.

Lemma testbit_small v w j : 0 <= v < 2 ^ w -> w <= j -> Z.testbit v j = false.
Proof.
  intros Hv Hj. destruct (Z.lt_ge_cases w 0) as [Hw | Hw].
  - rewrite Z.pow_neg_r in Hv by exact Hw. lia.
  - rewrite <- (Z.mod_small v (2 ^ w)) by exact Hv.
    apply Z.mod_pow2_bits_high. lia.
Qed.

(** The field that was written holds the value written. *)
Lemma field_rmw_same x v s w :
  0 <= s -> 0 <= w -> s + w <= 32 -> 0 <= v < 2 ^ w ->
  field s w (Z.lor (Z.land x (not32 (u32 (Z.shiftl (Z.ones w) s)))) (u32 (Z.shiftl v s))) = v.
Proof.
  intros Hs Hw Hfit Hv. apply Z.bits_inj'. intros j Hj.
  rewrite testbit_field by assumption.
  destruct (Z.ltb_spec j w) as [Hlt | Hge]; simpl.
  - rewrite testbit_rmw by lia. replace (j + s - s) with j by lia.
    rewrite Z.testbit_ones_nonneg by lia.
    replace (j <? w) with true by (symmetry; apply Z.ltb_lt; exact Hlt).
    simpl. rewrite andb_false_r. reflexivity.
  - symmetry. apply (testbit_small v w); assumption.
Qed.

(** A field that does not overlap the one written keeps its value. *)
Lemma field_rmw_other x v s w s' w' :
  0 <= s -> 0 <= w -> 0 <= s' -> 0 <= w' -> s' + w' <= 32 ->
  s' + w' <= s \/ s + w <= s' ->
  0 <= v < 2 ^ w ->
  field s' w' (Z.lor (Z.land x (not32 (u32 (Z.shiftl (Z.ones w) s)))) (u32 (Z.shiftl v s))) =
  field s' w' x.
Proof.
  intros Hs Hw Hs' Hw' Hfit Hapart Hv. apply Z.bits_inj'. intros j Hj.
  rewrite !testbit_field by assumption.
  destruct (Z.ltb_spec j w') as [Hlt | Hge]; simpl; [| reflexivity].
  rewrite testbit_rmw by lia.
  assert (Hm : Z.testbit (Z.ones w) (j + s' - s) = false).
  { rewrite Z.testbit_ones by exact Hw.
    destruct Hapart as [Hbelow | Habove].
    - replace (0 <=? j + s' - s) with false by (symmetry; apply Z.leb_gt; lia).
      reflexivity.
    - replace (j + s' - s <? w) with false by (symmetry; apply Z.ltb_ge; lia).
      apply andb_false_r. }
  assert (Hvb : Z.testbit v (j + s' - s) = false).
  { destruct Hapart as [Hbelow | Habove].
    - apply Z.testbit_neg_r. lia.
    - apply (testbit_small v w); [exact Hv | lia]. }
  rewrite Hm, Hvb. simpl. rewrite andb_true_r, orb_false_r. reflexivity.
Qed.

(** Writing the same field twice with the same value is writing it once. *)
Lemma rmw_idempotent x nm v :
  Z.lor (Z.land (Z.lor (Z.land x nm) v) nm) v = Z.lor (Z.land x nm) v.
Proof.
  apply Z.bits_inj'. intros i Hi.
  rewrite !Z.lor_spec, !Z.land_spec, !Z.lor_spec, !Z.land_spec.
  destruct (Z.testbit x i), (Z.testbit nm i), (Z.testbit v i); reflexivity.
Qed.

(** ** Interrupt numbers and delivery *)

Lemma line_has_entry_point n :
  0 <= n < N_EXTI ->
  exists e, entry_point (get_irq_number n) = Some e /\ In n (lines_of e).
Proof.
  intros Hn. unfold N_EXTI in Hn.
  rewrite <- (Z2Nat.id n) by lia.
  assert (Hk : (Z.to_nat n < 16)%nat) by lia.
  revert Hk. generalize (Z.to_nat n) as k. intros k Hk.
  do 16 (destruct k as [| k]; [eexists; split; [reflexivity | simpl; tauto] |]).
  lia.
Qed.

(** X1: the interrupt number [get_irq_number] gives for a pin number from
    0 to 15 is the one whose entry point polls that line, and every line
    an entry point polls has that entry point's interrupt number; for any
    other pin number the result is [(IRQn_Type)0]. *)
Theorem get_irq_number_matches_entry_points :
  (forall n, 0 <= n < N_EXTI ->
     exists e, entry_point (get_irq_number n) = Some e /\ In n (lines_of e)) /\
  (forall e n, In n (lines_of e) -> entry_point (get_irq_number n) = Some e) /\
  (forall n, n < 0 \/ N_EXTI <= n -> get_irq_number n = IRQn_0).
Proof.
  split; [| split].
  - exact line_has_entry_point.
  - intros e n Hin. destruct e; simpl in Hin;
      repeat (destruct Hin as [<- | Hin]); try contradiction; reflexivity.
  - intros n [Hneg | Hbig].
    + destruct n as [| p | p]; try lia. reflexivity.
    + unfold N_EXTI in Hbig. destruct n as [| p | p]; try lia.
      do 5 (destruct p as [p | p |]; try lia; try reflexivity).
Qed.

(** X2: one poll of a line from 0 to 15 whose pending flag is set and whose
    slot has a callback calls that callback once with the slot's context and
    clears the flag, so that a second poll without a new edge does nothing
    more. *)
Theorem maybe_handle_delivers_once n m :
  0 <= n < N_EXTI ->
  Z.testbit (PR m) n = true ->
  callback (subscription_at n m) <> nullptr ->
  calls (maybe_handle n m) =
    mk_call n (callback (subscription_at n m)) (ctx (subscription_at n m)) :: calls m /\
  Z.testbit (PR (maybe_handle n m)) n = false /\
  maybe_handle n (maybe_handle n m) = maybe_handle n m.
Proof.
  intros Hn Hp Hcb. unfold N_EXTI in Hn.
  assert (Hflag : Z.testbit (PR (maybe_handle n m)) n = false).
  { rewrite maybe_handle_pending by lia. rewrite Z.eqb_refl. apply andb_false_r. }
  split; [| split; [exact Hflag | apply maybe_handle_not_pending, Hflag]].
  rewrite maybe_handle_calls by (unfold N_EXTI; lia).
  unfold callbacks_due. simpl. rewrite Hp.
  apply Z.eqb_neq in Hcb. rewrite Hcb. reflexivity.
Qed.

Lemma maybe_handle_flags_subset n k m :
  Z.testbit (PR (maybe_handle n m)) k = true -> Z.testbit (PR m) k = true.
Proof.
  unfold maybe_handle.
  destruct (HAL_GPIO_EXTI_GET_IT (Z.shiftl 1 n) m =? RESET); [exact id |].
  assert (E : forall x, PR x = Z.land (PR m) (not32 (u32 (Z.shiftl 1 n))) ->
                        Z.testbit (PR x) k = true -> Z.testbit (PR m) k = true).
  { intros x -> H. rewrite Z.land_spec in H. apply andb_true_iff in H. tauto. }
  repeat match goal with |- context [if ?b then _ else _] => destruct b end;
    apply E; reflexivity.
Qed.

Lemma polls_flags_subset ls k m :
  Z.testbit (PR (fold_left (fun s n => maybe_handle n s) ls m)) k = true ->
  Z.testbit (PR m) k = true.
Proof.
  revert m. induction ls as [| n ls IH]; intros m; simpl; [exact id |].
  intros H. apply (maybe_handle_flags_subset n), IH, H.
Qed.

Lemma polls_registers ls m :
  let m' := fold_left (fun s n => maybe_handle n s) ls m in
  (EXTICR m', RTSR m', FTSR m', EMR m', IMR m', SYSCFGEN m') =
  (EXTICR m, RTSR m, FTSR m, EMR m, IMR m, SYSCFGEN m).
Proof.
  revert m. induction ls as [| n ls IH]; intros m; simpl; [reflexivity |].
  rewrite IH. apply maybe_handle_registers.
Qed.

(** X3: an interrupt entry point never writes the subscription table or
    the routing, trigger and mask registers, and never sets a pending flag:
    every flag that is set afterwards was set before. *)
Theorem interrupt_entry_only_consumes_flags e m :
  subscriptions (irq_handler e m) = subscriptions m /\
  (EXTICR (irq_handler e m), RTSR (irq_handler e m), FTSR (irq_handler e m),
   EMR (irq_handler e m), IMR (irq_handler e m), SYSCFGEN (irq_handler e m)) =
  (EXTICR m, RTSR m, FTSR m, EMR m, IMR m, SYSCFGEN m) /\
  (forall k, Z.testbit (PR (irq_handler e m)) k = true -> Z.testbit (PR m) k = true).
Proof.
  split; [apply irq_handler_subscriptions |].
  rewrite irq_handler_polls. split; [apply polls_registers |].
  intros k. apply polls_flags_subset.
Qed.

(** ** More on subscribe and unsubscribe *)

Section MoreSubscription.

Context {hdr : Header}.

(** The table a successful [subscribe] leaves. *)
Lemma subscribe_table g r f cb cx m m' :
  subscribe g r f cb cx m = (true, m') ->
  subscriptions m' =
  <[Z.to_nat (pin_number_of g) := mk_subscription (port_ g) cb cx]> (subscriptions m).
Proof.
  intros H.
  destruct (subscribe_cases g r f cb cx m)
    as [[_ E] | [(_ & _ & E) | (_ & _ & E)]]; rewrite E in H; try discriminate.
  assert (Hm : m' = run (subscribe_body g r f cb cx) (store_port (pin_number_of g) (port_ g) m))
    by congruence.
  subst m'. rewrite run_body.
  unfold store_callback, store_ctx, subscription_at. cbn [subscriptions set_subscriptions].
  rewrite !configure_subscriptions.
  unfold store_port, subscription_at. cbn [subscriptions set_subscriptions].
  destruct (Nat.lt_ge_cases (Z.to_nat (pin_number_of g)) (length (subscriptions m)))
    as [Hin | Hout].
  - rewrite !list_insert_insert_eq.
    rewrite !list_lookup_total_insert_eq by (rewrite ?length_insert; exact Hin).
    reflexivity.
  - rewrite !list_insert_ge by (rewrite ?length_insert; exact Hout). reflexivity.
Qed.

Lemma subscribe_success_line g r f cb cx m m' :
  subscribe g r f cb cx m = (true, m') ->
  pin_number_of g < N_EXTI /\ port (subscription_at (pin_number_of g) m) = nullptr.
Proof.
  intros H.
  destruct (subscribe_cases g r f cb cx m)
    as [[_ E] | [(_ & _ & E) | (Hn & Hfree & _)]];
    [rewrite E in H; discriminate | rewrite E in H; discriminate | auto].
Qed.

(** X4: [subscribe] returns true exactly when the pin's line number is
    below 16 and the slot of that line has no owner. *)
Theorem subscribe_succeeds_iff_line_free g r f cb cx m :
  fst (subscribe g r f cb cx m) = true <->
  pin_number_of g < N_EXTI /\ port (subscription_at (pin_number_of g) m) = nullptr.
Proof.
  destruct (subscribe_cases g r f cb cx m)
    as [[Hbad E] | [(Hn & Hown & E) | (Hn & Hfree & E)]]; rewrite E; simpl; split.
  - discriminate.
  - intros [Hn _]. lia.
  - discriminate.
  - intros [_ Hfree]. contradiction.
  - auto.
  - reflexivity.
Qed.

(** X5: on a 16-slot table a successful [subscribe] leaves the caller's
    port, callback and context in the slot of the pin's line, leaves every
    other slot as it was, and makes no call. *)
Theorem subscribe_installs_binding g r f cb cx m m' :
  length (subscriptions m) = Z.to_nat N_EXTI ->
  subscribe g r f cb cx m = (true, m') ->
  subscription_at (pin_number_of g) m' = mk_subscription (port_ g) cb cx /\
  (forall k, 0 <= k -> k <> pin_number_of g ->
     subscription_at k m' = subscription_at k m) /\
  length (subscriptions m') = Z.to_nat N_EXTI /\
  calls m' = calls m.
Proof.
  intros Hlen H.
  assert (Hn : pin_number_of g < N_EXTI).
  { apply (subscribe_success_line g r f cb cx m m' H). }
  pose proof (pin_nonneg g) as Hnn.
  split; [| split; [| split]].
  - apply (subscribe_slot g r f cb cx m m'); [| exact H].
    rewrite Hlen. unfold N_EXTI in *. lia.
  - intros k Hk Hne.
    pose proof (subscribe_other_slot g r f cb cx m k Hk Hne) as E.
    rewrite H in E. exact E.
  - pose proof (subscribe_length g r f cb cx m) as E. rewrite H in E. simpl in E.
    rewrite E. exact Hlen.
  - pose proof (subscribe_calls g r f cb cx m) as E. rewrite H in E. exact E.
Qed.

Lemma u32_one_hot n k :
  0 <= n < 32 -> 0 <= k < 32 ->
  Z.testbit (u32 (Z.shiftl 1 n)) k = (k =? n) /\
  Z.testbit (not32 (u32 (Z.shiftl 1 n))) k = negb (k =? n).
Proof.
  intros Hn Hk.
  assert (B : Z.testbit (u32 (Z.shiftl 1 n)) k = (k =? n)).
  { rewrite testbit_u32, testbit_one_hot by lia.
    replace (k <? 32) with true by (symmetry; apply Z.ltb_lt; lia). reflexivity. }
  split; [exact B |]. rewrite testbit_not32, B by lia.
  replace (k <? 32) with true by (symmetry; apply Z.ltb_lt; lia). reflexivity.
Qed.

(** The registers a successful [subscribe] leaves. *)
Lemma subscribe_registers g r f cb cx m m' :
  subscribe g r f cb cx m = (true, m') ->
  EXTICR m' =
    <[Z.to_nat (Z.shiftr (pin_number_of g) 2) :=
        Z.lor (Z.land (EXTICR m !!! Z.to_nat (Z.shiftr (pin_number_of g) 2))
                 (not32 (u32 (Z.shiftl 15 (4 * Z.land (pin_number_of g) 3)))))
          (u32 (Z.shiftl (u32 (GPIO_GET_INDEX (port_ g)))
                  (4 * Z.land (pin_number_of g) 3)))]> (EXTICR m) /\
  EMR m' = Z.land (EMR m) (not32 (u32 (pin_mask_ g))) /\
  IMR m' = Z.lor (IMR m) (u32 (pin_mask_ g)) /\
  PR m' = Z.land (PR m) (not32 (u32 (pin_mask_ g))) /\
  SYSCFGEN m' = true.
Proof.
  intros H.
  destruct (subscribe_cases g r f cb cx m)
    as [[_ E] | [(_ & _ & E) | (_ & _ & E)]]; rewrite E in H; try discriminate.
  assert (Hm : m' = run (subscribe_body g r f cb cx) (store_port (pin_number_of g) (port_ g) m))
    by congruence.
  subst m'. rewrite run_body. unfold run. cbn.
  destruct r, f; repeat split; reflexivity.
Qed.

Lemma line_register_and_nibble n :
  0 <= n < N_EXTI ->
  Z.shiftr n 2 = n / 4 /\ Z.land n 3 = n mod 4 /\ 0 <= n / 4 < 4 /\ 0 <= n mod 4 < 4.
Proof.
  unfold N_EXTI. intros Hn.
  split; [apply (Z.shiftr_div_pow2 n 2); lia |].
  split; [apply (Z.land_ones n 2); lia |].
  split; [| apply Z.mod_pos_bound; lia].
  split; [apply Z.div_pos; lia | apply Z.div_lt_upper_bound; lia].
Qed.

(** X6: after a successful [subscribe] the routing field of the pin's line
    in [SYSCFG->EXTICR] holds the index of the pin's port, and the routing
    field of every other line is as before (for a port index below 16 and
    the four routing registers). *)
Theorem subscribe_routes_line_to_port g r f cb cx m m' :
  length (EXTICR m) = 4%nat ->
  0 <= GPIO_GET_INDEX (port_ g) < 16 ->
  subscribe g r f cb cx m = (true, m') ->
  routing (pin_number_of g) m' = GPIO_GET_INDEX (port_ g) /\
  (forall k, 0 <= k < N_EXTI -> k <> pin_number_of g -> routing k m' = routing k m).
Proof.
  intros Hlen Hidx H.
  destruct (subscribe_success_line g r f cb cx m m' H) as [Hn _].
  pose proof (pin_nonneg g) as Hnn.
  destruct (line_register_and_nibble (pin_number_of g) (conj Hnn Hn))
    as (Eq & Er & Hq & Hr).
  destruct (subscribe_registers g r f cb cx m m' H) as (EX & _).
  unfold routing. rewrite EX. clear EX.
  assert (Hu : u32 (GPIO_GET_INDEX (port_ g)) = GPIO_GET_INDEX (port_ g))
    by (unfold u32; apply Z.mod_small; lia).
  rewrite Hu. change 15 with (Z.ones 4).
  assert (Hreg : (Z.to_nat (Z.shiftr (pin_number_of g) 2) < length (EXTICR m))%nat)
    by (rewrite Hlen, Eq; lia).
  split.
  - rewrite list_lookup_total_insert_eq by exact Hreg.
    apply field_rmw_same; [lia | lia | lia | simpl; lia].
  - intros k Hk Hne.
    destruct (line_register_and_nibble k Hk) as (Eqk & Erk & Hqk & Hrk).
    destruct (Z.eq_dec (Z.shiftr k 2) (Z.shiftr (pin_number_of g) 2)) as [Esame | Ediff].
    + rewrite Esame. rewrite list_lookup_total_insert_eq by exact Hreg.
      assert (Hnib : Z.land k 3 <> Z.land (pin_number_of g) 3).
      { intros Enib. apply Hne.
        rewrite (Z.div_mod k 4), (Z.div_mod (pin_number_of g) 4) by lia.
        rewrite <- Eqk, <- Erk, <- Eq, <- Er, Esame, Enib. reflexivity. }
      apply field_rmw_other; try lia; simpl; lia.
    + rewrite list_lookup_total_insert_ne; [reflexivity |].
      intros Enat. apply Ediff. rewrite Eqk, Eq in *. lia.
Qed.

(** X7: after a successful [subscribe] through a pin whose mask is the bit
    of its line, the line is unmasked as an interrupt (its bit in [IMR] is
    set) and masked as an event (its bit in [EMR] is clear), its stale
    pending flag is clear and the SYSCFG clock is on; the bits of every
    other line in these three registers are as before. *)
Theorem subscribe_unmasks_line g r f cb cx m m' :
  pin_mask_ g = Z.shiftl 1 (pin_number_of g) ->
  subscribe g r f cb cx m = (true, m') ->
  Z.testbit (IMR m') (pin_number_of g) = true /\
  Z.testbit (EMR m') (pin_number_of g) = false /\
  Z.testbit (PR m') (pin_number_of g) = false /\
  SYSCFGEN m' = true /\
  (forall k, 0 <= k < 32 -> k <> pin_number_of g ->
     Z.testbit (IMR m') k = Z.testbit (IMR m) k /\
     Z.testbit (EMR m') k = Z.testbit (EMR m) k /\
     Z.testbit (PR m') k = Z.testbit (PR m) k).
Proof.
  intros Hmask H.
  destruct (subscribe_success_line g r f cb cx m m' H) as [Hn _].
  pose proof (pin_nonneg g) as Hnn. unfold N_EXTI in Hn.
  destruct (subscribe_registers g r f cb cx m m' H) as (_ & -> & -> & -> & ->).
  rewrite Hmask.
  assert (Hb : forall k, 0 <= k < 32 ->
            Z.testbit (u32 (Z.shiftl 1 (pin_number_of g))) k = (k =? pin_number_of g) /\
            Z.testbit (not32 (u32 (Z.shiftl 1 (pin_number_of g)))) k =
              negb (k =? pin_number_of g))
    by (intros k Hk; apply u32_one_hot; lia).
  destruct (Hb (pin_number_of g)) as [B N]; [lia |]. rewrite Z.eqb_refl in B, N.
  rewrite Z.lor_spec, !Z.land_spec, B, N.
  split; [apply orb_true_r |]. split; [apply andb_false_r |].
  split; [apply andb_false_r |]. split; [reflexivity |].
  intros k Hk Hne. destruct (Hb k Hk) as [Bk Nk].
  replace (k =? pin_number_of g) with false in Bk, Nk
    by (symmetry; apply Z.eqb_neq; exact Hne).
  rewrite Z.lor_spec, !Z.land_spec, Bk, Nk. simpl.
  rewrite orb_false_r, !andb_true_r. auto.
Qed.

(** The slot [unsubscribe] leaves when both guards pass. *)
Lemma unsubscribe_effective_slot g m :
  pin_number_of g < N_EXTI ->
  port (subscription_at (pin_number_of g) m) = port_ g ->
  subscription_at (pin_number_of g) (unsubscribe g m) = no_subscription.
Proof.
  intros Hn Hown.
  destruct (unsubscribe_cases g m) as [[[Hbad | Hbad] _] | (_ & _ & ->)];
    [lia | contradiction |].
  rewrite run_unsubscribe_body. unfold subscription_at. cbn [subscriptions].
  rewrite list_lookup_total_insert.
  case_decide as D; [reflexivity |].
  apply (subscription_at_out_of_range (pin_number_of g) m).
  destruct (Nat.lt_ge_cases (Z.to_nat (pin_number_of g)) (length (subscriptions m)));
    [exfalso; apply D; auto | assumption].
Qed.

(** X8: when [unsubscribe] is called through the owner of a line, the slot
    is left with no owner, no callback and no context, and the next
    [subscribe] for that line succeeds, from whatever port it comes. *)
Theorem unsubscribe_frees_line g m :
  pin_number_of g < N_EXTI ->
  port (subscription_at (pin_number_of g) m) = port_ g ->
  subscription_at (pin_number_of g) (unsubscribe g m) = no_subscription /\
  (forall g' r f cb cx,
     pin_number_of g' = pin_number_of g ->
     fst (subscribe g' r f cb cx (unsubscribe g m)) = true).
Proof.
  intros Hn Hown.
  pose proof (unsubscribe_effective_slot g m Hn Hown) as Hslot.
  split; [exact Hslot |].
  intros g' r f cb cx Hsame.
  destruct (subscribe_cases g' r f cb cx (unsubscribe g m))
    as [[Hbad _] | [(_ & Hbusy & _) | (_ & _ & ->)]]; [lia | | reflexivity].
  rewrite Hsame, Hslot in Hbusy. contradiction.
Qed.

(** X9: [subscribe] followed by [unsubscribe] through the same pin gives
    back the table as it was, when the slot was empty before; no call is
    made, and [unsubscribe] leaves the routing, trigger and event mask
    registers as [subscribe] programmed them. *)
Theorem subscribe_unsubscribe_round_trip g r f cb cx m0 m1 :
  subscription_at (pin_number_of g) m0 = no_subscription ->
  subscribe g r f cb cx m0 = (true, m1) ->
  subscriptions (unsubscribe g m1) = subscriptions m0 /\
  calls (unsubscribe g m1) = calls m0 /\
  (EXTICR (unsubscribe g m1), RTSR (unsubscribe g m1), FTSR (unsubscribe g m1),
   EMR (unsubscribe g m1), SYSCFGEN (unsubscribe g m1)) =
  (EXTICR m1, RTSR m1, FTSR m1, EMR m1, SYSCFGEN m1).
Proof.
  intros Hempty H.
  destruct (subscribe_success_line g r f cb cx m0 m1 H) as [Hn _].
  pose proof (subscribe_table g r f cb cx m0 m1 H) as Htab.
  pose proof (subscribe_calls g r f cb cx m0) as Hcalls. rewrite H in Hcalls.
  simpl in Hcalls.
  destruct (Nat.lt_ge_cases (Z.to_nat (pin_number_of g)) (length (subscriptions m0)))
    as [Hin | Hout].
  - pose proof (subscribe_slot g r f cb cx m0 m1 Hin H) as Hslot.
    destruct (unsubscribe_cases g m1) as [[[Hbad | Hbad] _] | (_ & _ & ->)].
    + lia.
    + rewrite Hslot in Hbad. simpl in Hbad. contradiction.
    + rewrite run_unsubscribe_body. cbn. rewrite Htab, list_insert_insert_eq.
      split; [| split; [exact Hcalls | reflexivity]].
      apply list_insert_id.
      rewrite (list_lookup_lookup_total_lt _ _ Hin). f_equal. exact Hempty.
  - assert (Hsame : subscriptions m1 = subscriptions m0)
      by (rewrite Htab; apply list_insert_ge, Hout).
    destruct (unsubscribe_cases g m1) as [[_ ->] | (_ & _ & ->)].
    + split; [exact Hsame | split; [exact Hcalls | reflexivity]].
    + rewrite run_unsubscribe_body. cbn.
      split; [| split; [exact Hcalls | reflexivity]].
      rewrite Hsame. apply list_insert_ge, Hout.
Qed.

(** X10: no call or event hands a line over from one port to another: when
    the owner of a slot changes, the slot was free before or is free
    after. *)
Theorem owner_is_never_replaced o m k :
  0 <= k ->
  port (subscription_at k (exec o m)) = port (subscription_at k m) \/
  port (subscription_at k m) = nullptr \/
  port (subscription_at k (exec o m)) = nullptr.
Proof.
  intros Hk. destruct o as [g r f cb cx | g | e]; simpl.
  - destruct (Z.eq_dec k (pin_number_of g)) as [-> | Hne];
      [| left; rewrite subscribe_other_slot by auto; reflexivity].
    destruct (subscribe_cases g r f cb cx m)
      as [[_ ->] | [(_ & _ & ->) | (_ & Hfree & _)]]; auto.
  - destruct (Z.eq_dec k (pin_number_of g)) as [-> | Hne];
      [| left; rewrite unsubscribe_other_slot by auto; reflexivity].
    destruct (unsubscribe_cases g m) as [[_ ->] | (Hn & Hown & _)]; [auto |].
    right. right. rewrite (unsubscribe_effective_slot g m Hn Hown). reflexivity.
  - left. unfold subscription_at. rewrite fire_subscriptions. reflexivity.
Qed.

Lemma exec_keeps_free_slots_empty o m :
  bound_handle o = true ->
  (forall k, 0 <= k -> port (subscription_at k m) = nullptr ->
             subscription_at k m = no_subscription) ->
  forall k, 0 <= k -> port (subscription_at k (exec o m)) = nullptr ->
            subscription_at k (exec o m) = no_subscription.
Proof.
  intros Hb Hinv k Hk. destruct o as [g r f cb cx | g | e]; simpl.
  - simpl in Hb. apply negb_true_iff, Z.eqb_neq in Hb.
    destruct (Z.eq_dec k (pin_number_of g)) as [-> | Hne];
      [| rewrite subscribe_other_slot by auto; apply Hinv, Hk].
    destruct (subscribe_cases g r f cb cx m)
      as [[_ E] | [(_ & _ & E) | (_ & _ & E)]];
      [rewrite E; apply Hinv, Hk | rewrite E; apply Hinv, Hk |].
    destruct (Nat.lt_ge_cases (Z.to_nat (pin_number_of g)) (length (subscriptions m)))
      as [Hin | Hout].
    + pose proof (subscribe_slot g r f cb cx m _ Hin E) as Hslot.
      rewrite E. cbn [snd]. rewrite Hslot. simpl. intros Hnull. contradiction.
    + intros _. apply subscription_at_out_of_range.
      rewrite subscribe_length. exact Hout.
  - destruct (Z.eq_dec k (pin_number_of g)) as [-> | Hne];
      [| rewrite unsubscribe_other_slot by auto; apply Hinv, Hk].
    destruct (unsubscribe_cases g m) as [[_ ->] | (Hn & Hown & _)];
      [apply Hinv, Hk |].
    intros _. apply unsubscribe_effective_slot; assumption.
  - unfold subscription_at. rewrite fire_subscriptions. apply Hinv, Hk.
Qed.

(** X11: in every state reached from start-up by calls made through
    handles that have a port, and by events, a slot without an owner has no
    callback and no context either. *)
Theorem free_slots_are_empty os k :
  forallb bound_handle os = true ->
  0 <= k ->
  port (subscription_at k (exec_all os startup)) = nullptr ->
  subscription_at k (exec_all os startup) = no_subscription.
Proof.
  intros Hall. revert k. unfold exec_all.
  assert (Hstart : forall k, 0 <= k -> port (subscription_at k startup) = nullptr ->
                             subscription_at k startup = no_subscription).
  { intros k Hk _. unfold subscription_at, startup. cbn [subscriptions].
    rewrite list_lookup_total_alt.
    destruct (replicate (Z.to_nat N_EXTI) no_subscription !! Z.to_nat k) as [s |] eqn:E;
      [| reflexivity].
    apply lookup_replicate_1 in E as [-> _]. reflexivity. }
  revert Hstart. generalize startup as m.
  induction os as [| o os IH]; intros m Hinv; simpl; [exact Hinv |].
  simpl in Hall. apply andb_true_iff in Hall as [Ho Hos].
  apply (IH Hos). apply exec_keeps_free_slots_empty; assumption.
Qed.

End MoreSubscription.

(** ** Preemption, continued *)

Lemma fire_settled e m : settled (fire e m) = settled m.
Proof.
  destruct e as [lines | e]; [reflexivity |]. simpl.
  pose proof (irq_handler_subscriptions e m) as Hs.
  pose proof (polls_registers (lines_of e) m) as Hr.
  rewrite <- irq_handler_polls in Hr. cbv zeta in Hr.
  injection Hr as E1 E2 E3 E4 E5 E6.
  unfold settled. rewrite Hs, E1, E2, E3, E4, E5, E6. reflexivity.
Qed.

Lemma fire_all_settled es m : settled (fire_all es m) = settled m.
Proof.
  unfold fire_all. revert m. induction es as [| e es IH]; intros m; simpl;
    [reflexivity |]. rewrite IH. apply fire_settled.
Qed.

(** Interrupts leave alone what program flow settles, so a preempted block
    settles what its uninterrupted run settles, as long as what each
    statement settles depends on nothing else. *)
Lemma run_preempted_settled b sched m m' :
  (forall s, In s b -> forall x y, settled x = settled y -> settled (s x) = settled (s y)) ->
  settled m = settled m' ->
  settled (run_preempted b sched m) = settled (run b m').
Proof.
  unfold run. revert sched m m'.
  induction b as [| s b IH]; intros sched m m' Hb E; simpl; [exact E |].
  assert (Hb' : forall s', In s' b -> forall x y,
             settled x = settled y -> settled (s' x) = settled (s' y))
    by (intros s' Hin; apply Hb; right; exact Hin).
  destruct sched as [| es sched]; apply IH; try exact Hb';
    apply Hb; try (left; reflexivity); [exact E |].
  rewrite fire_all_settled. exact E.
Qed.

(** While the statements of a block leave the table alone, every call made
    by an interrupt that preempts the block is the one installed in the
    table the block started with. *)
Lemma run_preempted_same_table b sched m :
  (forall s, In s b -> forall x,
     subscriptions (s x) = subscriptions x /\ calls (s x) = calls x) ->
  subscriptions (run_preempted b sched m) = subscriptions m /\
  exists new, calls (run_preempted b sched m) = new ++ calls m /\
              Forall (call_from_slot m) new.
Proof.
  revert sched m. induction b as [| s b IH]; intros sched m Hb; simpl.
  - split; [reflexivity |]. exists []. split; [reflexivity | constructor].
  - assert (Hs : forall x, subscriptions (s x) = subscriptions x /\ calls (s x) = calls x)
      by (apply Hb; left; reflexivity).
    assert (Hb' : forall s', In s' b -> forall x,
               subscriptions (s' x) = subscriptions x /\ calls (s' x) = calls x)
      by (intros s' Hin; apply Hb; right; exact Hin).
    destruct sched as [| es sched].
    + destruct (Hs m) as [Hs1 Hs2].
      destruct (IH [] (s m) Hb') as (Ht & new & Hc & Hf).
      split; [congruence |]. exists new. split; [congruence |].
      eapply Forall_impl; [exact Hf |]. intros c.
      apply call_from_slot_same_table. symmetry. exact Hs1.
    + destruct (fire_all_log es m) as (new0 & Hc0 & Hf0).
      destruct (Hs (fire_all es m)) as [Hs1 Hs2].
      destruct (IH sched (s (fire_all es m)) Hb') as (Ht & new & Hc & Hf).
      assert (Hsame : subscriptions (s (fire_all es m)) = subscriptions m)
        by (rewrite Hs1; apply fire_all_subscriptions).
      split; [congruence |]. exists (new ++ new0). split.
      * rewrite Hc, Hs2, Hc0. apply app_assoc.
      * apply Forall_app. split; [| exact Hf0].
        eapply Forall_impl; [exact Hf |]. intros c.
        apply call_from_slot_same_table. symmetry. exact Hsame.
Qed.

Section MorePreemption.

Context {hdr : Header}.

Lemma subscribe_body_stmt_settled g r f cb cx s :
  In s (subscribe_body g r f cb cx) ->
  forall x y, settled x = settled y -> settled (s x) = settled (s y).
Proof.
  intros H x y E. unfold settled in E. injection E as E1 E2 E3 E4 E5 E6 E7.
  unfold subscribe_body, subscribe_configure, subscribe_publish in H. simpl in H.
  repeat (destruct H as [<- | H]); try contradiction;
    unfold settled, store_ctx, store_callback, subscription_at, HAL_GPIO_EXTI_CLEAR_IT,
      HAL_RCC_SYSCFG_CLK_ENABLE;
    destruct r, f; cbn; congruence.
Qed.

Lemma unsubscribe_body_stmt_settled g s :
  In s (unsubscribe_body g) ->
  forall x y, settled x = settled y -> settled (s x) = settled (s y).
Proof.
  intros H x y E. unfold settled in E. injection E as E1 E2 E3 E4 E5 E6 E7.
  unfold unsubscribe_body in H. simpl in H.
  repeat (destruct H as [<- | H]); try contradiction;
    unfold settled, store_ctx, store_callback, store_port, subscription_at,
      HAL_GPIO_EXTI_CLEAR_IT;
    cbn; congruence.
Qed.

(** X12: interrupts that preempt the bodies of [subscribe] and
    [unsubscribe], at whatever statements, do not change what the bodies
    settle: the table and the routing, trigger and mask registers end as
    after the uninterrupted run (only pending flags and the call log can
    differ). *)
Theorem preemption_keeps_the_outcome g r f cb cx sched m :
  settled (run_preempted (subscribe_body g r f cb cx) sched m) =
    settled (run (subscribe_body g r f cb cx) m) /\
  settled (run_preempted (unsubscribe_body g) sched m) =
    settled (run (unsubscribe_body g) m).
Proof.
  split.
  - apply run_preempted_settled; [apply subscribe_body_stmt_settled | reflexivity].
  - apply run_preempted_settled; [apply unsubscribe_body_stmt_settled | reflexivity].
Qed.

(** X13: while the body of [unsubscribe] runs, preempted by interrupts at
    whatever statements, every call the dispatcher makes for the line is
    the callback that was bound with the context that was bound (never the
    callback with an already cleared context), and once the body has
    finished the slot has no callback. *)
Theorem unsubscribe_preempted_delivers_bound_pair g m sched :
  pin_number_of g < N_EXTI ->
  port (subscription_at (pin_number_of g) m) = port_ g ->
  unsubscribe g m = run (unsubscribe_body g) m /\
  (exists new,
     calls (run_preempted (unsubscribe_body g) sched m) = new ++ calls m /\
     Forall (fun c => call_line c = pin_number_of g ->
                      call_fn c = callback (subscription_at (pin_number_of g) m) /\
                      call_arg c = ctx (subscription_at (pin_number_of g) m)) new) /\
  callback (subscription_at (pin_number_of g)
              (run_preempted (unsubscribe_body g) sched m)) = nullptr.
Proof.
  intros Hn Hown.
  split.
  { destruct (unsubscribe_cases g m) as [[[Hbad | Hbad] _] | (_ & _ & E)];
      [lia | contradiction | exact E]. }
  set (n := pin_number_of g).
  set (b1 := [(fun x => set_IMR (Z.lor (IMR x) (u32 (pin_mask_ g))) x);
              HAL_GPIO_EXTI_CLEAR_IT (pin_mask_ g)] : block).
  set (b2 := [store_ctx n nullptr; store_port n nullptr] : block).
  assert (Hbody : unsubscribe_body g = b1 ++ store_callback n nullptr :: b2)
    by reflexivity.
  rewrite Hbody, run_preempted_app.
  destruct (run_preempted_same_table b1 sched m) as (Ht1 & new1 & Hc1 & Hf1).
  { intros s Hin x. simpl in Hin. destruct Hin as [<- | [<- | []]]; split; reflexivity. }
  set (y := run_preempted b1 sched m) in *.
  assert (Hb2 : forall s, In s b2 -> forall x,
             callback (subscription_at n (s x)) = callback (subscription_at n x) /\
             calls (s x) = calls x).
  { intros s Hin x. simpl in Hin. destruct Hin as [<- | [<- | []]].
    - split; [apply callback_after_store_ctx | reflexivity].
    - split; [apply callback_after_store_port | reflexivity]. }
  assert (Hbound : forall c, call_from_slot m c ->
             call_line c = n ->
             call_fn c = callback (subscription_at n m) /\
             call_arg c = ctx (subscription_at n m)).
  { intros c (_ & Hcb & Hcx) Hline. rewrite Hline in Hcb, Hcx. auto. }
  assert (Hoff : forall c, call_line c <> n ->
             call_line c = n ->
             call_fn c = callback (subscription_at n m) /\
             call_arg c = ctx (subscription_at n m))
    by (intros c Hne Hline; contradiction).
  destruct (drop (length b1) sched) as [| es sched'].
  - change (run_preempted (store_callback n nullptr :: b2) [] y)
      with (run_preempted b2 [] (store_callback n nullptr y)).
    destruct (run_preempted_quiet n b2 [] (store_callback n nullptr y) Hb2)
      as (Hq & new2 & Hc2 & Hf2); [apply callback_cleared |].
    split; [| exact Hq]. exists (new2 ++ new1). split.
    + rewrite Hc2. change (calls (store_callback n nullptr y)) with (calls y).
      rewrite Hc1. apply app_assoc.
    + apply Forall_app. split.
      * eapply Forall_impl; [exact Hf2 |]. exact Hoff.
      * eapply Forall_impl; [exact Hf1 |]. exact Hbound.
  - change (run_preempted (store_callback n nullptr :: b2) (es :: sched') y)
      with (run_preempted b2 sched' (store_callback n nullptr (fire_all es y))).
    destruct (fire_all_log es y) as (new0 & Hc0 & Hf0).
    destruct (run_preempted_quiet n b2 sched' (store_callback n nullptr (fire_all es y)) Hb2)
      as (Hq & new2 & Hc2 & Hf2); [apply callback_cleared |].
    split; [| exact Hq]. exists (new2 ++ new0 ++ new1). split.
    + rewrite Hc2.
      change (calls (store_callback n nullptr (fire_all es y))) with (calls (fire_all es y)).
      rewrite Hc0, Hc1. rewrite <- !app_assoc. reflexivity.
    + apply Forall_app. split; [| apply Forall_app; split].
      * eapply Forall_impl; [exact Hf2 |]. exact Hoff.
      * eapply Forall_impl; [exact Hf0 |]. intros c Hc. apply Hbound.
        eapply call_from_slot_same_table; [| exact Hc]. symmetry. exact Ht1.
      * eapply Forall_impl; [exact Hf1 |]. exact Hbound.
Qed.

End MorePreemption.

(** ** From an edge to the callback *)

Lemma lines_of_below_32 e : Forall (fun n => 0 <= n < 32) (lines_of e).
Proof. destruct e; simpl; repeat constructor; lia. Qed.

Section Delivery.

Context {hdr : Header}.

(** X14: after a successful [subscribe] with a callback, through a pin
    whose mask is the bit of its line, on a 16-slot table: when the hardware
    latches an edge on that line and the entry point of the pin's interrupt
    number runs, with no other line of its group pending, the callback is
    called exactly once with its context; running the entry point again
    without a new edge changes nothing. *)
Theorem subscribed_edge_is_delivered_once g r f cb cx m0 m1 :
  length (subscriptions m0) = Z.to_nat N_EXTI ->
  pin_mask_ g = Z.shiftl 1 (pin_number_of g) ->
  cb <> nullptr ->
  subscribe g r f cb cx m0 = (true, m1) ->
  exists e,
    entry_point (get_irq_number (pin_number_of g)) = Some e /\
    ((forall j, In j (lines_of e) -> j <> pin_number_of g -> Z.testbit (PR m1) j = false) ->
     calls (irq_handler e (fire (latch (pin_mask_ g)) m1)) =
       mk_call (pin_number_of g) cb cx :: calls m1 /\
     irq_handler e (irq_handler e (fire (latch (pin_mask_ g)) m1)) =
       irq_handler e (fire (latch (pin_mask_ g)) m1)).
Proof.
  intros Hlen Hmask Hcb H.
  destruct (subscribe_success_line g r f cb cx m0 m1 H) as [Hn _].
  pose proof (pin_nonneg g) as Hnn.
  destruct (line_has_entry_point (pin_number_of g) (conj Hnn Hn)) as (e & He & Hin).
  exists e. split; [exact He |]. intros Hquiet.
  set (n := pin_number_of g) in *.
  set (m2 := fire (latch (pin_mask_ g)) m1).
  pose proof (lines_of_below_32 e) as Hr.
  assert (Hslot : subscription_at n m2 = mk_subscription (port_ g) cb cx).
  { change (subscription_at n m2) with (subscription_at n m1).
    apply (subscribe_slot g r f cb cx m0 m1); [| exact H].
    rewrite Hlen. unfold N_EXTI in *. lia. }
  assert (Hpend : forall j, 0 <= j ->
            Z.testbit (PR m2) j = Z.testbit (PR m1) j || (j =? n)).
  { intros j Hj. change (PR m2) with (Z.lor (PR m1) (pin_mask_ g)).
    rewrite Hmask, Z.lor_spec, testbit_one_hot by lia. reflexivity. }
  assert (Hothers : forall j, In j (lines_of e) -> j <> n -> Z.testbit (PR m2) j = false).
  { intros j Hj Hne.
    assert (0 <= j < 32) as Hrj by (rewrite List.Forall_forall in Hr; apply Hr, Hj).
    rewrite Hpend by lia. rewrite (Hquiet j Hj Hne).
    apply Z.eqb_neq in Hne. rewrite Hne. reflexivity. }
  assert (Hone : irq_handler e m2 = maybe_handle n m2).
  { rewrite irq_handler_polls. apply polls_single; assumption. }
  rewrite Hone. split.
  - rewrite maybe_handle_calls by exact Hn.
    unfold callbacks_due. simpl. rewrite Hpend by lia.
    rewrite Z.eqb_refl, orb_true_r, Hslot. simpl.
    apply Z.eqb_neq in Hcb. rewrite Hcb. reflexivity.
  - rewrite irq_handler_polls. apply polls_idle. intros j Hj.
    assert (0 <= j < 32) as Hrj by (rewrite List.Forall_forall in Hr; apply Hr, Hj).
    rewrite maybe_handle_pending by exact Hrj.
    destruct (Z.eqb_spec j n) as [-> | Hne]; [apply andb_false_r |].
    rewrite (Hothers j Hj Hne). reflexivity.
Qed.

End Delivery.

(** ** Pin configuration *)

Lemma two_bit_write x v pos :
  0 <= pos < 16 -> 0 <= v < 4 ->
  pin_bits pos (Z.lor (Z.land x (not32 (u32 (Z.shiftl 3 (pos * 2)))))
                  (u32 (Z.shiftl v (pos * 2)))) = v /\
  (forall q, 0 <= q < 16 -> q <> pos ->
     pin_bits q (Z.lor (Z.land x (not32 (u32 (Z.shiftl 3 (pos * 2)))))
                   (u32 (Z.shiftl v (pos * 2)))) = pin_bits q x).
Proof.
  intros Hpos Hv. unfold pin_bits. change 3 with (Z.ones 2). split.
  - apply field_rmw_same; simpl; lia.
  - intros q Hq Hne. apply field_rmw_other; simpl; lia.
Qed.

Lemma one_bit_write x v pos :
  0 <= pos < 16 -> 0 <= v < 2 ->
  Z.testbit (Z.lor (Z.land x (not32 (u32 (Z.shiftl 1 pos)))) (u32 (Z.shiftl v pos))) pos =
    Z.testbit v 0 /\
  (forall q, 0 <= q < 32 -> q <> pos ->
     Z.testbit (Z.lor (Z.land x (not32 (u32 (Z.shiftl 1 pos)))) (u32 (Z.shiftl v pos))) q =
     Z.testbit x q).
Proof.
  intros Hpos Hv. split.
  - rewrite testbit_rmw by lia. rewrite Z.sub_diag. simpl Z.testbit at 2.
    simpl. rewrite andb_false_r. reflexivity.
  - intros q Hq Hne. rewrite testbit_rmw by lia.
    assert (H1 : Z.testbit 1 (q - pos) = false).
    { change 1 with (2 ^ 0). apply Z.pow2_bits_false. lia. }
    assert (Hvb : Z.testbit v (q - pos) = false).
    { destruct (Z.lt_ge_cases (q - pos) 0) as [Hneg | Hnn].
      - apply Z.testbit_neg_r, Hneg.
      - apply (testbit_small v 1); simpl; lia. }
    rewrite H1, Hvb. simpl. rewrite andb_true_r, orb_false_r. reflexivity.
Qed.

Lemma pin_register_and_nibble q :
  0 <= q < 16 ->
  Z.shiftr q 3 = q / 8 /\ Z.land q 7 = q mod 8 /\ 0 <= q / 8 < 2 /\ 0 <= q mod 8 < 8.
Proof.
  intros Hq.
  split; [apply (Z.shiftr_div_pow2 q 3); lia |].
  split; [apply (Z.land_ones q 3); lia |].
  split; [| apply Z.mod_pos_bound; lia].
  split; [apply Z.div_pos; lia | apply Z.div_lt_upper_bound; lia].
Qed.

(** The output type that [config] takes from the mode is bit 4 of it. *)
Lemma output_type_bit mode :
  Z.shiftr (Z.land mode GPIO_OUTPUT_TYPE) 4 = Z.b2z (Z.testbit mode 4).
Proof.
  apply Z.bits_inj'. intros j Hj.
  rewrite Z.shiftr_spec, Z.land_spec by exact Hj.
  unfold GPIO_OUTPUT_TYPE. change 16 with (2 ^ 4).
  rewrite Z.pow2_bits_eqb by lia.
  destruct (Z.eqb_spec 4 (j + 4)) as [E | E].
  - assert (j = 0) by lia. subst j. rewrite andb_true_r. simpl.
    symmetry. apply Z.b2z_bit0.
  - rewrite andb_false_r. symmetry.
    apply (testbit_small _ 1); [destruct (Z.testbit mode 4); simpl; lia | lia].
Qed.

Section ConfigFacts.

Context {hdr : Header} {hal : Hal}.

Lemma is_alternate_driven mode : is_alternate mode = true -> is_driven mode = true.
Proof.
  unfold is_alternate, is_driven.
  destruct (mode =? GPIO_MODE_AF_PP), (mode =? GPIO_MODE_AF_OD),
    (mode =? GPIO_MODE_OUTPUT_PP), (mode =? GPIO_MODE_OUTPUT_OD);
    simpl; auto.
Qed.

(** The registers [config] can leave: the ones it was given, those after
    the alternate function and the mode have been written, and those after
    all writes. *)
Lemma config_result g mode pull speed af p :
  let pos := pin_number_of g in
  let p1 := write_MODER pos mode (if is_alternate mode then write_AFR pos af p else p) in
  let p2 := write_PUPDR pos pull
              (if is_driven mode then write_OTYPER pos mode (write_OSPEEDR pos speed p1)
               else p1) in
  (config g mode pull speed af p = (false, p) /\
   (enable_clock g = false \/ is_alternate mode = true /\ IS_GPIO_AF af = false)) \/
  (config g mode pull speed af p = (false, p1) /\
   enable_clock g = true /\ (is_alternate mode = true -> IS_GPIO_AF af = true) /\
   is_driven mode = true /\ IS_GPIO_SPEED speed = false) \/
  (config g mode pull speed af p = (true, p2) /\
   enable_clock g = true /\ (is_alternate mode = true -> IS_GPIO_AF af = true) /\
   (is_driven mode = true -> IS_GPIO_SPEED speed = true)).
Proof.
  intros pos p1 p2. subst p1 p2 pos. unfold config.
  destruct (enable_clock g); simpl; [| left; auto].
  destruct (is_alternate mode) eqn:Ealt; simpl.
  - destruct (IS_GPIO_AF af); simpl; [| left; auto].
    destruct (is_driven mode); simpl; [| right; right; intuition discriminate].
    destruct (IS_GPIO_SPEED speed); simpl; right; [right | left]; auto.
  - destruct (is_driven mode); simpl; [| right; right; intuition discriminate].
    destruct (IS_GPIO_SPEED speed); simpl; right; [right | left];
      intuition discriminate.
Qed.

(** X15: when the clock of the pin's port cannot be enabled, or an
    alternate function mode is asked for with an invalid alternate function
    index, [config] returns false and has written no register. *)
Theorem config_rejects_before_writing g mode pull speed af p :
  enable_clock g = false \/ (is_alternate mode = true /\ IS_GPIO_AF af = false) ->
  config g mode pull speed af p = (false, p).
Proof.
  intros H. unfold config.
  destruct (enable_clock g); simpl; [| reflexivity].
  destruct H as [H | [Halt Haf]]; [discriminate |].
  rewrite Halt, Haf. reflexivity.
Qed.

(** X16: [config] returns true exactly when the clock could be enabled,
    the alternate function index is valid if the mode is an alternate
    function mode, and the speed is valid if the mode is an output or
    alternate function mode; pull and, in the input and analog modes, speed
    and alternate function are never checked. *)
Theorem config_succeeds_iff g mode pull speed af p :
  fst (config g mode pull speed af p) = true <->
  enable_clock g = true /\
  (is_alternate mode = true -> IS_GPIO_AF af = true) /\
  (is_driven mode = true -> IS_GPIO_SPEED speed = true).
Proof.
  destruct (config_result g mode pull speed af p)
    as [[E Hwhy] | [(E & Hclk & Haf & Hdrv & Hspd) | (E & Hclk & Haf & Hspd)]];
    rewrite E; simpl; split; try discriminate; auto.
  - intros (Hclk & Haf & _). destruct Hwhy as [Hoff | [Halt Hbad]]; [congruence |].
    rewrite (Haf Halt) in Hbad. discriminate.
  - intros (_ & _ & Hok). rewrite (Hok Hdrv) in Hspd. discriminate.
Qed.

Lemma mode_bits_bound mode : 0 <= Z.land mode GPIO_MODE < 4.
Proof.
  unfold GPIO_MODE. change 3 with (Z.ones 2). rewrite Z.land_ones by lia.
  apply Z.mod_pos_bound. reflexivity.
Qed.

Lemma write_MODER_bits pos mode p :
  0 <= pos < 16 -> GPIO_MODER_MODER0 = 3 ->
  pin_bits pos (MODER (write_MODER pos mode p)) = Z.land mode GPIO_MODE /\
  (forall q, 0 <= q < 16 -> q <> pos ->
     pin_bits q (MODER (write_MODER pos mode p)) = pin_bits q (MODER p)).
Proof.
  intros Hpos Hmask. unfold write_MODER. cbn [MODER set_MODER]. rewrite Hmask.
  apply two_bit_write; [exact Hpos | apply mode_bits_bound].
Qed.

Lemma write_OSPEEDR_bits pos speed p :
  0 <= pos < 16 -> GPIO_OSPEEDER_OSPEEDR0 = 3 -> 0 <= speed < 4 ->
  pin_bits pos (OSPEEDR (write_OSPEEDR pos speed p)) = speed /\
  (forall q, 0 <= q < 16 -> q <> pos ->
     pin_bits q (OSPEEDR (write_OSPEEDR pos speed p)) = pin_bits q (OSPEEDR p)).
Proof.
  intros Hpos Hmask Hv. unfold write_OSPEEDR. cbn [OSPEEDR set_OSPEEDR]. rewrite Hmask.
  apply two_bit_write; assumption.
Qed.

Lemma write_PUPDR_bits pos pull p :
  0 <= pos < 16 -> GPIO_PUPDR_PUPDR0 = 3 -> 0 <= pull < 4 ->
  pin_bits pos (PUPDR (write_PUPDR pos pull p)) = pull /\
  (forall q, 0 <= q < 16 -> q <> pos ->
     pin_bits q (PUPDR (write_PUPDR pos pull p)) = pin_bits q (PUPDR p)).
Proof.
  intros Hpos Hmask Hv. unfold write_PUPDR. cbn [PUPDR set_PUPDR]. rewrite Hmask.
  apply two_bit_write; assumption.
Qed.

Lemma write_OTYPER_bit pos mode p :
  0 <= pos < 16 -> GPIO_OTYPER_OT_0 = 1 ->
  Z.testbit (OTYPER (write_OTYPER pos mode p)) pos = Z.testbit mode 4 /\
  (forall q, 0 <= q < 16 -> q <> pos ->
     Z.testbit (OTYPER (write_OTYPER pos mode p)) q = Z.testbit (OTYPER p) q).
Proof.
  intros Hpos Hmask. unfold write_OTYPER. cbn [OTYPER set_OTYPER].
  rewrite Hmask, output_type_bit.
  destruct (one_bit_write (OTYPER p) (Z.b2z (Z.testbit mode 4)) pos Hpos) as [Hsame Hother];
    [destruct (Z.testbit mode 4); simpl; lia |].
  split; [rewrite Hsame; apply Z.b2z_bit0 |].
  intros q Hq Hne. apply Hother; lia.
Qed.

Lemma write_AFR_nibble pos af p :
  0 <= pos < 16 -> length (AFR p) = 2%nat -> 0 <= af < 16 ->
  pin_alternate pos (write_AFR pos af p) = af /\
  (forall q, 0 <= q < 16 -> q <> pos ->
     pin_alternate q (write_AFR pos af p) = pin_alternate q p).
Proof.
  intros Hpos Hlen Hv.
  destruct (pin_register_and_nibble pos Hpos) as (Eq & Er & Hq & Hr).
  unfold pin_alternate, write_AFR. cbn [AFR set_AFR].
  change 15 with (Z.ones 4).
  assert (Hreg : (Z.to_nat (Z.shiftr pos 3) < length (AFR p))%nat)
    by (rewrite Hlen, Eq; lia).
  split.
  - rewrite list_lookup_total_insert_eq by exact Hreg.
    apply field_rmw_same; simpl; lia.
  - intros q Hqr Hne.
    destruct (pin_register_and_nibble q Hqr) as (Eqq & Erq & Hqq & Hrq).
    destruct (Z.eq_dec (Z.shiftr q 3) (Z.shiftr pos 3)) as [Esame | Ediff].
    + rewrite Esame. rewrite list_lookup_total_insert_eq by exact Hreg.
      assert (Hnib : Z.land q 7 <> Z.land pos 7).
      { intros Enib. apply Hne.
        rewrite (Z.div_mod q 8), (Z.div_mod pos 8) by lia.
        rewrite <- Eqq, <- Erq, <- Eq, <- Er, Esame, Enib. reflexivity. }
      apply field_rmw_other; simpl; lia.
    + rewrite list_lookup_total_insert_ne; [reflexivity |].
      intros Enat. apply Ediff. rewrite Eqq, Eq in *. lia.
Qed.

(** X17: [config] is not all-or-nothing.  When an output or alternate
    function mode is asked for with an invalid speed, it returns false after
    the pin's mode field (and, in an alternate function mode, its alternate
    function field) has been written; speed, output type and pull are left
    as they were. *)
Theorem config_invalid_speed_leaves_mode_written g mode pull speed af p :
  pin_number_of g < 16 ->
  GPIO_MODER_MODER0 = 3 ->
  enable_clock g = true ->
  (is_alternate mode = true -> IS_GPIO_AF af = true) ->
  is_driven mode = true ->
  IS_GPIO_SPEED speed = false ->
  fst (config g mode pull speed af p) = false /\
  pin_bits (pin_number_of g) (MODER (snd (config g mode pull speed af p))) =
    Z.land mode GPIO_MODE /\
  OSPEEDR (snd (config g mode pull speed af p)) = OSPEEDR p /\
  OTYPER (snd (config g mode pull speed af p)) = OTYPER p /\
  PUPDR (snd (config g mode pull speed af p)) = PUPDR p /\
  AFR (snd (config g mode pull speed af p)) =
    (if is_alternate mode then AFR (write_AFR (pin_number_of g) af p) else AFR p).
Proof.
  intros Hpos Hmask Hclk Haf Hdrv Hspd.
  pose proof (pin_nonneg g) as Hnn.
  destruct (config_result g mode pull speed af p)
    as [[_ Hwhy] | [(E & _) | (_ & _ & _ & Hok)]].
  - destruct Hwhy as [Hoff | [Halt Hbad]]; [congruence |].
    rewrite (Haf Halt) in Hbad. discriminate.
  - rewrite E. cbn [fst snd].
    split; [reflexivity |].
    split; [apply write_MODER_bits; [lia | exact Hmask] |].
    destruct (is_alternate mode); repeat split; reflexivity.
  - rewrite (Hok Hdrv) in Hspd. discriminate.
Qed.

(** X18: when [config] succeeds for a pin number below 16 (with the HAL's
    field masks of pin 0 being 3, 3, 3 and 1, a pull value below 4, a speed
    below 4 and an alternate function index below 16 where they are used),
    the pin's mode field holds the two low bits of the mode and its pull
    field the pull value; in an output or alternate function mode its speed
    field holds the speed and its output type bit is bit 4 of the mode,
    otherwise the speed and output type registers are untouched; in an
    alternate function mode its alternate function field holds the index,
    otherwise the alternate function registers are untouched. *)
Theorem config_programs_the_pin g mode pull speed af p p' :
  pin_number_of g < 16 ->
  GPIO_MODER_MODER0 = 3 -> GPIO_PUPDR_PUPDR0 = 3 ->
  GPIO_OSPEEDER_OSPEEDR0 = 3 -> GPIO_OTYPER_OT_0 = 1 ->
  length (AFR p) = 2%nat ->
  0 <= pull < 4 ->
  (is_driven mode = true -> 0 <= speed < 4) ->
  (is_alternate mode = true -> 0 <= af < 16) ->
  config g mode pull speed af p = (true, p') ->
  pin_bits (pin_number_of g) (MODER p') = Z.land mode GPIO_MODE /\
  pin_bits (pin_number_of g) (PUPDR p') = pull /\
  (if is_driven mode
   then pin_bits (pin_number_of g) (OSPEEDR p') = speed /\
        Z.testbit (OTYPER p') (pin_number_of g) = Z.testbit mode 4
   else OSPEEDR p' = OSPEEDR p /\ OTYPER p' = OTYPER p) /\
  (if is_alternate mode
   then pin_alternate (pin_number_of g) p' = af
   else AFR p' = AFR p).
Proof.
  intros Hpos HM HP HS HO Hlen Hpull Hspeed Haf H.
  pose proof (pin_nonneg g) as Hnn.
  assert (Hrange : 0 <= pin_number_of g < 16) by lia.
  destruct (config_result g mode pull speed af p)
    as [[E _] | [(E & _) | (E & _)]]; rewrite E in H; try discriminate.
  assert (Hp : p' = write_PUPDR (pin_number_of g) pull
                 (if is_driven mode
                  then write_OTYPER (pin_number_of g) mode
                         (write_OSPEEDR (pin_number_of g) speed
                            (write_MODER (pin_number_of g) mode
                               (if is_alternate mode
                                then write_AFR (pin_number_of g) af p else p)))
                  else write_MODER (pin_number_of g) mode
                         (if is_alternate mode
                          then write_AFR (pin_number_of g) af p else p)))
    by congruence.
  clear H E. subst p'.
  split; [| split; [| split]].
  - destruct (is_driven mode);
      apply (write_MODER_bits (pin_number_of g) mode); assumption.
  - apply write_PUPDR_bits; assumption.
  - destruct (is_driven mode); [| destruct (is_alternate mode); split; reflexivity].
    split.
    + apply (write_OSPEEDR_bits (pin_number_of g) speed); auto.
    + apply (write_OTYPER_bit (pin_number_of g) mode); assumption.
  - destruct (is_alternate mode) eqn:Ealt.
    + destruct (is_driven mode);
        apply (write_AFR_nibble (pin_number_of g) af p); auto.
    + destruct (is_driven mode); reflexivity.
Qed.

Lemma keeps_other_pins_refl pos p : keeps_other_pins pos p p.
Proof. intros q Hq Hne. repeat split; reflexivity. Qed.

Lemma keeps_other_pins_trans pos p1 p2 p3 :
  keeps_other_pins pos p1 p2 -> keeps_other_pins pos p2 p3 -> keeps_other_pins pos p1 p3.
Proof.
  intros H12 H23 q Hq Hne.
  destruct (H12 q Hq Hne) as (A1 & A2 & A3 & A4 & A5).
  destruct (H23 q Hq Hne) as (B1 & B2 & B3 & B4 & B5).
  repeat split; congruence.
Qed.

Lemma write_MODER_keeps pos mode p :
  0 <= pos < 16 -> GPIO_MODER_MODER0 = 3 ->
  keeps_other_pins pos p (write_MODER pos mode p).
Proof.
  intros Hpos Hmask q Hq Hne.
  split; [apply write_MODER_bits; assumption | repeat split; reflexivity].
Qed.

Lemma write_OSPEEDR_keeps pos speed p :
  0 <= pos < 16 -> GPIO_OSPEEDER_OSPEEDR0 = 3 -> 0 <= speed < 4 ->
  keeps_other_pins pos p (write_OSPEEDR pos speed p).
Proof.
  intros Hpos Hmask Hv q Hq Hne.
  split; [reflexivity |].
  split; [apply write_OSPEEDR_bits; assumption | repeat split; reflexivity].
Qed.

Lemma write_PUPDR_keeps pos pull p :
  0 <= pos < 16 -> GPIO_PUPDR_PUPDR0 = 3 -> 0 <= pull < 4 ->
  keeps_other_pins pos p (write_PUPDR pos pull p).
Proof.
  intros Hpos Hmask Hv q Hq Hne.
  split; [reflexivity |]. split; [reflexivity |].
  split; [apply write_PUPDR_bits; assumption | repeat split; reflexivity].
Qed.

Lemma write_OTYPER_keeps pos mode p :
  0 <= pos < 16 -> GPIO_OTYPER_OT_0 = 1 ->
  keeps_other_pins pos p (write_OTYPER pos mode p).
Proof.
  intros Hpos Hmask q Hq Hne.
  split; [reflexivity |]. split; [reflexivity |]. split; [reflexivity |].
  split; [apply write_OTYPER_bit; assumption | reflexivity].
Qed.

Lemma write_AFR_keeps pos af p :
  0 <= pos < 16 -> length (AFR p) = 2%nat -> 0 <= af < 16 ->
  keeps_other_pins pos p (write_AFR pos af p).
Proof.
  intros Hpos Hlen Hv q Hq Hne.
  split; [reflexivity |]. split; [reflexivity |]. split; [reflexivity |].
  split; [reflexivity |]. apply write_AFR_nibble; assumption.
Qed.

(** X19: whether it succeeds or fails, [config] leaves every other pin of
    the port as it was: mode, speed, pull, output type and alternate
    function of each pin number but its own are unchanged (under the
    conditions of X18 on the pin number, the field masks and the values;
    the pull value in particular is written unmasked and must be below
    4). *)
Theorem config_leaves_other_pins g mode pull speed af p q :
  pin_number_of g < 16 ->
  GPIO_MODER_MODER0 = 3 -> GPIO_PUPDR_PUPDR0 = 3 ->
  GPIO_OSPEEDER_OSPEEDR0 = 3 -> GPIO_OTYPER_OT_0 = 1 ->
  length (AFR p) = 2%nat ->
  0 <= pull < 4 ->
  (is_driven mode = true -> 0 <= speed < 4) ->
  (is_alternate mode = true -> 0 <= af < 16) ->
  0 <= q < 16 -> q <> pin_number_of g ->
  pin_bits q (MODER (snd (config g mode pull speed af p))) = pin_bits q (MODER p) /\
  pin_bits q (OSPEEDR (snd (config g mode pull speed af p))) = pin_bits q (OSPEEDR p) /\
  pin_bits q (PUPDR (snd (config g mode pull speed af p))) = pin_bits q (PUPDR p) /\
  Z.testbit (OTYPER (snd (config g mode pull speed af p))) q = Z.testbit (OTYPER p) q /\
  pin_alternate q (snd (config g mode pull speed af p)) = pin_alternate q p.
Proof.
  intros Hpos HM HP HS HO Hlen Hpull Hspeed Haf Hq Hne.
  pose proof (pin_nonneg g) as Hnn.
  assert (Hrange : 0 <= pin_number_of g < 16) by lia.
  set (pos := pin_number_of g) in *.
  assert (K0 : keeps_other_pins pos p
                 (if is_alternate mode then write_AFR pos af p else p)).
  { destruct (is_alternate mode);
      [apply write_AFR_keeps; auto | apply keeps_other_pins_refl]. }
  assert (K1 : keeps_other_pins pos p
                 (write_MODER pos mode
                    (if is_alternate mode then write_AFR pos af p else p))).
  { eapply keeps_other_pins_trans; [exact K0 |]. apply write_MODER_keeps; assumption. }
  assert (K : keeps_other_pins pos p (snd (config g mode pull speed af p))).
  { destruct (config_result g mode pull speed af p)
      as [[E _] | [(E & _) | (E & _)]]; rewrite E; cbn [snd]; fold pos.
    - apply keeps_other_pins_refl.
    - exact K1.
    - eapply keeps_other_pins_trans; [| apply write_PUPDR_keeps; assumption].
      destruct (is_driven mode); [| exact K1].
      eapply keeps_other_pins_trans; [| apply write_OTYPER_keeps; assumption].
      eapply keeps_other_pins_trans; [exact K1 |].
      apply write_OSPEEDR_keeps; auto. }
  exact (K q Hq Hne).
Qed.

Lemma insert_rmw_idempotent (A : list Z) i nm v :
  <[i := Z.lor (Z.land ((<[i := Z.lor (Z.land (A !!! i) nm) v]> A) !!! i) nm) v]>
    (<[i := Z.lor (Z.land (A !!! i) nm) v]> A) =
  <[i := Z.lor (Z.land (A !!! i) nm) v]> A.
Proof.
  destruct (Nat.lt_ge_cases i (length A)) as [Hin | Hout].
  - rewrite list_lookup_total_insert_eq by exact Hin.
    rewrite list_insert_insert_eq, rmw_idempotent. reflexivity.
  - rewrite !list_insert_ge by (rewrite ?length_insert; exact Hout). reflexivity.
Qed.

Lemma write_AFR_mk pos af M O S P A :
  write_AFR pos af (mk_port M O S P A) =
  mk_port M O S P
    (<[Z.to_nat (Z.shiftr pos 3) :=
         Z.lor (Z.land (A !!! Z.to_nat (Z.shiftr pos 3))
                  (not32 (u32 (Z.shiftl 15 (Z.land pos 7 * 4)))))
           (u32 (Z.shiftl af (Z.land pos 7 * 4)))]> A).
Proof. reflexivity. Qed.

Lemma write_MODER_mk pos mode M O S P A :
  write_MODER pos mode (mk_port M O S P A) =
  mk_port (Z.lor (Z.land M (not32 (u32 (Z.shiftl GPIO_MODER_MODER0 (pos * 2)))))
             (u32 (Z.shiftl (Z.land mode GPIO_MODE) (pos * 2)))) O S P A.
Proof. reflexivity. Qed.

Lemma write_OSPEEDR_mk pos speed M O S P A :
  write_OSPEEDR pos speed (mk_port M O S P A) =
  mk_port M O
    (Z.lor (Z.land S (not32 (u32 (Z.shiftl GPIO_OSPEEDER_OSPEEDR0 (pos * 2)))))
       (u32 (Z.shiftl speed (pos * 2)))) P A.
Proof. reflexivity. Qed.

Lemma write_OTYPER_mk pos mode M O S P A :
  write_OTYPER pos mode (mk_port M O S P A) =
  mk_port M
    (Z.lor (Z.land O (not32 (u32 (Z.shiftl GPIO_OTYPER_OT_0 pos))))
       (u32 (Z.shiftl (Z.shiftr (Z.land mode GPIO_OUTPUT_TYPE) 4) pos))) S P A.
Proof. reflexivity. Qed.

Lemma write_PUPDR_mk pos pull M O S P A :
  write_PUPDR pos pull (mk_port M O S P A) =
  mk_port M O S
    (Z.lor (Z.land P (not32 (u32 (Z.shiftl GPIO_PUPDR_PUPDR0 (pos * 2)))))
       (u32 (Z.shiftl pull (pos * 2)))) A.
Proof. reflexivity. Qed.

Ltac write_registers :=
  repeat first
    [ rewrite write_AFR_mk | rewrite write_MODER_mk | rewrite write_OSPEEDR_mk
    | rewrite write_OTYPER_mk | rewrite write_PUPDR_mk ].

(** Writing the alternate function and the mode a second time changes
    nothing. *)
Lemma first_writes_idempotent pos mode af (alt : bool) p :
  write_MODER pos mode
    (if alt
     then write_AFR pos af
            (write_MODER pos mode (if alt then write_AFR pos af p else p))
     else write_MODER pos mode (if alt then write_AFR pos af p else p)) =
  write_MODER pos mode (if alt then write_AFR pos af p else p).
Proof.
  destruct p as [M O S P A]. destruct alt; write_registers;
    f_equal; try apply rmw_idempotent; apply insert_rmw_idempotent.
Qed.

(** Writing all the fields of the pin a second time changes nothing. *)
Lemma all_writes_idempotent pos mode pull speed af (alt drv : bool) p :
  let first x := write_MODER pos mode (if alt then write_AFR pos af x else x) in
  let rest x := write_PUPDR pos pull
                  (if drv then write_OTYPER pos mode (write_OSPEEDR pos speed x) else x) in
  rest (first (rest (first p))) = rest (first p).
Proof.
  intros first rest. subst first rest. cbv beta.
  destruct p as [M O S P A]. destruct alt, drv; write_registers;
    f_equal; try apply rmw_idempotent; apply insert_rmw_idempotent.
Qed.

(** X20: [config] is idempotent: calling it again with the same arguments
    on the registers it left gives the same result and leaves the same
    registers, whatever the arguments are. *)
Theorem config_twice_is_config_once g mode pull speed af p :
  config g mode pull speed af (snd (config g mode pull speed af p)) =
  config g mode pull speed af p.
Proof.
  destruct (config_result g mode pull speed af p)
    as [[E _] | [(E & Hclk & Haf & Hdrv & Hspd) | (E & Hclk & Haf & Hspd)]];
    rewrite E; cbn [snd].
  - exact E.
  - match goal with |- config _ _ _ _ _ ?x = _ =>
      destruct (config_result g mode pull speed af x)
        as [[_ Hwhy] | [(E' & _) | (_ & _ & _ & Hok)]]
    end.
    + destruct Hwhy as [Hoff | [Halt Hbad]]; [congruence |].
      rewrite (Haf Halt) in Hbad. discriminate.
    + rewrite E'. f_equal. apply first_writes_idempotent.
    + rewrite (Hok Hdrv) in Hspd. discriminate.
  - match goal with |- config _ _ _ _ _ ?x = _ =>
      destruct (config_result g mode pull speed af x)
        as [[_ Hwhy] | [(_ & _ & _ & Hdrv & Hbad) | (E' & _)]]
    end.
    + destruct Hwhy as [Hoff | [Halt Hbad]]; [congruence |].
      rewrite (Haf Halt) in Hbad. discriminate.
    + rewrite (Hspd Hdrv) in Hbad. discriminate.
    + rewrite E'. f_equal.
      apply (all_writes_idempotent (pin_number_of g) mode pull speed af
               (is_alternate mode) (is_driven mode) p).
Qed.

End ConfigFacts.

(** ** The further theorems at concrete inputs *)

(** Line 5 is subscribed by pin 5 of port A and an edge has been latched. *)
Lemma maybe_handle_delivers_once_witness :
  calls (maybe_handle 5
           (fire (latch 0x20)
              (snd (subscribe Board.PA5 true false Board.on_edge Board.axis0 startup)))) =
  [mk_call 5 Board.on_edge Board.axis0].
Proof.
  refine (proj1 (maybe_handle_delivers_once 5
            (fire (latch 0x20)
               (snd (subscribe Board.PA5 true false Board.on_edge Board.axis0 startup)))
            _ _ _)).
  - unfold N_EXTI. lia.
  - vm_compute. reflexivity.
  - vm_compute. discriminate.
Defined.

(** Pin 3 of port A subscribes on the start-up table. *)
Lemma subscribe_installs_binding_witness :
  subscription_at (pin_number_of Board.PA3)
    (snd (subscribe Board.PA3 true false Board.on_edge Board.axis0 startup)) =
  mk_subscription (port_ Board.PA3) Board.on_edge Board.axis0.
Proof.
  refine (proj1 (subscribe_installs_binding Board.PA3 true false Board.on_edge Board.axis0
                   startup _ _ _)).
  - reflexivity.
  - vm_compute. reflexivity.
Defined.

(** Pin 3 of port B subscribes: line 3 is routed to port index 1. *)
Lemma subscribe_routes_line_to_port_witness :
  routing (pin_number_of Board.PB3)
    (snd (subscribe Board.PB3 true true Board.on_index Board.axis1 startup)) =
  GPIO_GET_INDEX (port_ Board.PB3).
Proof.
  refine (proj1 (subscribe_routes_line_to_port Board.PB3 true true Board.on_index
                   Board.axis1 startup _ _ _ _)).
  - reflexivity.
  - vm_compute. split; [discriminate | reflexivity].
  - vm_compute. reflexivity.
Defined.

(** Pin 5 of port A subscribes: line 5 is unmasked. *)
Lemma subscribe_unmasks_line_witness :
  Z.testbit (IMR (snd (subscribe Board.PA5 true false Board.on_edge Board.axis0 startup)))
    (pin_number_of Board.PA5) = true.
Proof.
  refine (proj1 (subscribe_unmasks_line Board.PA5 true false Board.on_edge Board.axis0
                   startup _ _ _)).
  - vm_compute. reflexivity.
  - vm_compute. reflexivity.
Defined.

(** Port A releases line 3 and port B takes it. *)
Lemma unsubscribe_frees_line_witness :
  fst (subscribe Board.PB3 true true Board.on_index Board.axis1
         (unsubscribe Board.PA3
            (snd (subscribe Board.PA3 true false Board.on_edge Board.axis0 startup)))) = true.
Proof.
  refine (proj2 (unsubscribe_frees_line Board.PA3
                   (snd (subscribe Board.PA3 true false Board.on_edge Board.axis0 startup))
                   _ _) Board.PB3 true true Board.on_index Board.axis1 _).
  - vm_compute. reflexivity.
  - vm_compute. reflexivity.
  - vm_compute. reflexivity.
Defined.

(** Pin 5 of port A subscribes and unsubscribes on the start-up table. *)
Lemma subscribe_unsubscribe_round_trip_witness :
  subscriptions
    (unsubscribe Board.PA5
       (snd (subscribe Board.PA5 true false Board.on_edge Board.axis0 startup))) =
  subscriptions startup.
Proof.
  refine (proj1 (subscribe_unsubscribe_round_trip Board.PA5 true false Board.on_edge
                   Board.axis0 startup _ _ _)).
  - vm_compute. reflexivity.
  - vm_compute. reflexivity.
Defined.

(** Port B asks for line 3 while port A owns it. *)
Lemma owner_is_never_replaced_witness :
  port (subscription_at 3
          (exec (op_subscribe Board.PB3 true true Board.on_index Board.axis1)
             (snd (subscribe Board.PA3 true false Board.on_edge Board.axis0 startup)))) =
  port (subscription_at 3
          (snd (subscribe Board.PA3 true false Board.on_edge Board.axis0 startup))) \/
  port (subscription_at 3
          (snd (subscribe Board.PA3 true false Board.on_edge Board.axis0 startup))) =
  nullptr \/
  port (subscription_at 3
          (exec (op_subscribe Board.PB3 true true Board.on_index Board.axis1)
             (snd (subscribe Board.PA3 true false Board.on_edge Board.axis0 startup)))) =
  nullptr.
Proof.
  apply (owner_is_never_replaced
           (op_subscribe Board.PB3 true true Board.on_index Board.axis1)
           (snd (subscribe Board.PA3 true false Board.on_edge Board.axis0 startup)) 3).
  lia.
Defined.

(** Line 3 is used by port A, released, used by port B and released. *)
Lemma free_slots_are_empty_witness :
  subscription_at 3
    (exec_all
       [op_subscribe Board.PA3 true false Board.on_edge Board.axis0;
        op_event (latch 0x08); op_event (irq EXTI3);
        op_unsubscribe Board.PA3;
        op_subscribe Board.PB3 true true Board.on_index Board.axis1;
        op_unsubscribe Board.PB3]
       startup) = no_subscription.
Proof.
  apply (free_slots_are_empty
           [op_subscribe Board.PA3 true false Board.on_edge Board.axis0;
            op_event (latch 0x08); op_event (irq EXTI3);
            op_unsubscribe Board.PA3;
            op_subscribe Board.PB3 true true Board.on_index Board.axis1;
            op_unsubscribe Board.PB3] 3).
  - vm_compute. reflexivity.
  - lia.
  - vm_compute. reflexivity.
Defined.

(** Pin 5 of port A unsubscribes while edges on line 5 are dispatched
    before the first statement and before the context is cleared. *)
Lemma unsubscribe_preempted_delivers_bound_pair_witness :
  callback (subscription_at (pin_number_of Board.PA5)
              (run_preempted (unsubscribe_body Board.PA5)
                 [[latch 0x20; irq EXTI9_5]; []; []; [latch 0x20; irq EXTI9_5]]
                 (snd (subscribe Board.PA5 true false Board.on_edge Board.axis0 startup)))) =
  nullptr.
Proof.
  refine (proj2 (proj2 (unsubscribe_preempted_delivers_bound_pair Board.PA5
            (snd (subscribe Board.PA5 true false Board.on_edge Board.axis0 startup))
            [[latch 0x20; irq EXTI9_5]; []; []; [latch 0x20; irq EXTI9_5]] _ _))).
  - vm_compute. reflexivity.
  - vm_compute. reflexivity.
Defined.

(** Pin 5 of port A subscribes on the start-up table, an edge arrives and
    the entry point of lines 5 to 9 runs. *)
Lemma subscribed_edge_is_delivered_once_witness :
  calls (irq_handler EXTI9_5
           (fire (latch (pin_mask_ Board.PA5))
              (snd (subscribe Board.PA5 true false Board.on_edge Board.axis0 startup)))) =
  mk_call (pin_number_of Board.PA5) Board.on_edge Board.axis0 ::
  calls (snd (subscribe Board.PA5 true false Board.on_edge Board.axis0 startup)).
Proof.
  destruct (subscribed_edge_is_delivered_once Board.PA5 true false Board.on_edge
              Board.axis0 startup
              (snd (subscribe Board.PA5 true false Board.on_edge Board.axis0 startup)))
    as (e & He & Hdeliver).
  - reflexivity.
  - vm_compute. reflexivity.
  - vm_compute. discriminate.
  - vm_compute. reflexivity.
  - vm_compute in He. injection He as <-.
    apply Hdeliver. intros j Hj Hne. simpl in Hj.
    destruct Hj as [<- | [<- | [<- | [<- | [<- | []]]]]]; reflexivity.
Defined.

(** The handle [Stm32Gpio::none] has no port whose clock could be enabled. *)
Lemma config_rejects_before_writing_witness :
  config none 0x01 0 0 0 port_reset = (false, port_reset).
Proof.
  apply config_rejects_before_writing. left. vm_compute. reflexivity.
Defined.

(** Pin 5 of port A is asked to be a push-pull output with speed 7. *)
Lemma config_invalid_speed_leaves_mode_written_witness :
  fst (config Board.PA5 0x01 0 7 0 port_reset) = false /\
  pin_bits (pin_number_of Board.PA5) (MODER (snd (config Board.PA5 0x01 0 7 0 port_reset))) =
    Z.land 0x01 GPIO_MODE.
Proof.
  destruct (config_invalid_speed_leaves_mode_written Board.PA5 0x01 0 7 0 port_reset)
    as (Hfalse & Hmode & _).
  - vm_compute. reflexivity.
  - reflexivity.
  - reflexivity.
  - intros H. vm_compute in H. discriminate.
  - reflexivity.
  - reflexivity.
  - split; assumption.
Defined.

(** Pin 5 of port A becomes an open-drain alternate function 7 pin with a
    pull-up and speed 2. *)
Lemma config_programs_the_pin_witness :
  pin_bits (pin_number_of Board.PA5)
    (MODER (snd (config Board.PA5 0x12 1 2 7 port_reset))) = Z.land 0x12 GPIO_MODE /\
  pin_bits (pin_number_of Board.PA5)
    (PUPDR (snd (config Board.PA5 0x12 1 2 7 port_reset))) = 1.
Proof.
  destruct (config_programs_the_pin Board.PA5 0x12 1 2 7 port_reset
              (snd (config Board.PA5 0x12 1 2 7 port_reset)))
    as (Hmode & Hpull & _).
  - vm_compute. reflexivity.
  - reflexivity.
  - reflexivity.
  - reflexivity.
  - reflexivity.
  - reflexivity.
  - lia.
  - intros _. lia.
  - intros _. lia.
  - vm_compute. reflexivity.
  - split; assumption.
Defined.

(** The same configuration of pin 5 leaves pin 6 alone. *)
Lemma config_leaves_other_pins_witness :
  pin_bits 6 (MODER (snd (config Board.PA5 0x12 1 2 7 port_reset))) =
  pin_bits 6 (MODER port_reset).
Proof.
  refine (proj1 (config_leaves_other_pins Board.PA5 0x12 1 2 7 port_reset 6
                   _ _ _ _ _ _ _ _ _ _ _)).
  - vm_compute. reflexivity.
  - reflexivity.
  - reflexivity.
  - reflexivity.
  - reflexivity.
  - reflexivity.
  - lia.
  - intros _. lia.
  - intros _. lia.
  - lia.
  - vm_compute. discriminate.
Defined.
